(** * WebBaoGia backend: a shallow embedding of [server.js]

    The server is an Express application over three Mongoose models
    ([Series], [Product], [User]).  Every handler is a short sequence of
    awaited store calls inside a [try]/[catch].  The embedding below keeps
    that shape: store calls are computations in a small state/exception/trace
    monad over an explicit store, handlers are written with [try_catch], and
    the two external libraries whose internals the handlers never look at
    (bcryptjs and jsonwebtoken) are taken as an interface. *)

From Stdlib Require Import String Ascii List Bool ZArith NArith.
From Stdlib.Strings Require Import Byte HexString.
Import ListNotations.
Local Open Scope string_scope.

(** ** ObjectId

    A BSON ObjectId is twelve bytes.  On the wire (URL parameters, JSON
    bodies, JSON responses) it is a string of 24 hexadecimal digits. *)

Record ObjectId := mkObjectId {
  ob0 : byte; ob1 : byte; ob2 : byte; ob3 : byte;
  ob4 : byte; ob5 : byte; ob6 : byte; ob7 : byte;
  ob8 : byte; ob9 : byte; ob10 : byte; ob11 : byte
}.

Definition oid_bytes (i : ObjectId) : list byte :=
  [ob0 i; ob1 i; ob2 i; ob3 i; ob4 i; ob5 i;
   ob6 i; ob7 i; ob8 i; ob9 i; ob10 i; ob11 i].

Definition oid_of_bytes (l : list byte) : option ObjectId :=
  match l with
  | [a0; a1; a2; a3; a4; a5; a6; a7; a8; a9; a10; a11] =>
      Some (mkObjectId a0 a1 a2 a3 a4 a5 a6 a7 a8 a9 a10 a11)
  | _ => None
  end.

Fixpoint bytes_eqb (l1 l2 : list byte) : bool :=
  match l1, l2 with
  | [], [] => true
  | b1 :: r1, b2 :: r2 => Byte.eqb b1 b2 && bytes_eqb r1 r2
  | _, _ => false
  end.

(** [ObjectId.prototype.equals] *)
Definition oid_eqb (i j : ObjectId) : bool :=
  bytes_eqb (oid_bytes i) (oid_bytes j).

Definition hexdigit (n : N) : ascii :=
  match n with
  | 0 => "0" | 1 => "1" | 2 => "2" | 3 => "3" | 4 => "4" | 5 => "5"
  | 6 => "6" | 7 => "7" | 8 => "8" | 9 => "9" | 10 => "a" | 11 => "b"
  | 12 => "c" | 13 => "d" | 14 => "e" | _ => "f"
  end%N%char.

(** Value of a hexadecimal digit, upper or lower case. *)
Definition hexval (c : ascii) : option N :=
  let n := N_of_ascii c in
  (if (48 <=? n) && (n <=? 57) then Some (n - 48)
   else if (97 <=? n) && (n <=? 102) then Some (n - 87)
   else if (65 <=? n) && (n <=? 70) then Some (n - 55)
   else None)%N.

Definition byte_hex (b : byte) (rest : string) : string :=
  let n := Byte.to_N b in
  String (hexdigit (n / 16)%N) (String (hexdigit (n mod 16)%N) rest).

(** [ObjectId.prototype.toHexString]: lower-case hex of a byte sequence. *)
Fixpoint bytes_hex (l : list byte) : string :=
  match l with
  | [] => EmptyString
  | b :: r => byte_hex b (bytes_hex r)
  end.

Definition toHexString (i : ObjectId) : string := bytes_hex (oid_bytes i).

Fixpoint hex_bytes (s : string) : option (list byte) :=
  match s with
  | EmptyString => Some []
  | String c1 (String c2 r) =>
      match hexval c1, hexval c2, hex_bytes r with
      | Some h, Some l, Some bs =>
          match Byte.of_N (16 * h + l)%N with
          | Some b => Some (b :: bs)
          | None => None
          end
      | _, _, _ => None
      end
  | String _ EmptyString => None
  end.

(** Mongoose's cast of a string to ObjectId, as BSON 6 does it: a string of
    exactly 24 hexadecimal digits is accepted, anything else is a
    [CastError] ([None]).  (BSON releases before 6 also accept any
    12-character string; the counterexamples below use a string of another
    length.) *)
Definition castObjectId (s : string) : option ObjectId :=
  match hex_bytes s with
  | Some bs => oid_of_bytes bs
  | None => None
  end.

Set Warnings "-register-all".

(** ** JSON values

    Response bodies sent with [res.json], and request fields whose JavaScript
    type matters to the code that receives them. *)

Inductive json :=
| JNull
| JBool (b : bool)
| JNum (z : Z)
| JStr (s : string)
| JArr (l : list json)
| JObj (fields : list (string * json)).

Fixpoint assoc {A} (k : string) (l : list (string * A)) : option A :=
  match l with
  | [] => None
  | (k', v) :: r => if String.eqb k k' then Some v else assoc k r
  end.

(** [j.k] for an object [j]; [None] is JavaScript's [undefined]. *)
Definition json_field (k : string) (j : json) : option json :=
  match j with
  | JObj fields => assoc k fields
  | _ => None
  end.

(** [typeof v], with [None] standing for [undefined]. *)
Definition typeof (v : option json) : string :=
  match v with
  | None => "undefined"
  | Some (JBool _) => "boolean"
  | Some (JNum _) => "number"
  | Some (JStr _) => "string"
  | Some JNull | Some (JArr _) | Some (JObj _) => "object"
  end.

(** ** Documents

    The three schemas.  [String] and [Number] paths without [required] may be
    absent from a stored document; [required] paths never are.  A request
    field destined for a [String] path is taken to be a string when present,
    and one destined for a [Number] path an integer. *)

Record SeriesDoc := mkSeries {
  series_id : ObjectId;
  series_name : string
}.

Record ProductDoc := mkProduct {
  product_id : ObjectId;
  name : option string;
  capacity : option string;
  color : option string;
  code : option string;
  battery : option string;
  condition : option string;
  sellingPrice : option Z;
  purchasePrice : option Z;
  source : option string;
  series : option ObjectId
}.

Record UserDoc := mkUser {
  user_id : ObjectId;
  username : string;
  password : string
}.

(** Body of [POST /api/products]. *)
Record ProductBody := mkProductBody {
  body_name : option string;
  body_capacity : option string;
  body_color : option string;
  body_code : option string;
  body_battery : option string;
  body_condition : option string;
  body_sellingPrice : option Z;
  body_purchasePrice : option Z;
  body_source : option string;
  seriesId : option string
}.

(** ** The store

    One MongoDB database behind one connection.  [db_error] is the state of
    the connection: [Some msg] when every operation sent to the store fails
    with [msg]. *)

Record Store := mkStore {
  series_coll : list SeriesDoc;
  product_coll : list ProductDoc;
  user_coll : list UserDoc;
  db_error : option string
}.

(** The store after the insertion of one document; documents are kept in
    insertion order. *)
Definition with_series (st : Store) (s : SeriesDoc) : Store :=
  mkStore (series_coll st ++ [s])%list (product_coll st) (user_coll st)
          (db_error st).

Definition with_product (st : Store) (p : ProductDoc) : Store :=
  mkStore (series_coll st) (product_coll st ++ [p])%list (user_coll st)
          (db_error st).

Definition with_user (st : Store) (u : UserDoc) : Store :=
  mkStore (series_coll st) (product_coll st) (user_coll st ++ [u])%list
          (db_error st).

Inductive Model := MSeries | MProduct | MUser.

(** Operations sent to the store, in the order they are sent. *)
Inductive DbOp :=
| Query (m : Model)
| Insert (m : Model).

Definition modelName (m : Model) : string :=
  match m with
  | MSeries => "Series"
  | MProduct => "Product"
  | MUser => "User"
  end.

(** ** Errors thrown by the libraries *)

Inductive Error :=
| CastError (value : string) (path : string) (m : Model)
| ValidationError (m : Model) (path : string)
| DuplicateKey (m : Model) (path : string)
| StoreError (msg : string)
| IllegalArguments (ty1 ty2 : string).

Definition dquote : string := String (ascii_of_nat 34) EmptyString.

(** [err.message].  The messages the libraries build from the request are
    spelled out; the duplicate-key message of the server, which also names
    the database and quotes the key, is abridged to the model and the
    index. *)
Definition message (e : Error) : string :=
  match e with
  | CastError v path m =>
      "Cast to ObjectId failed for value " ++ dquote ++ v ++ dquote ++
      " (type string) at path " ++ dquote ++ path ++ dquote ++
      " for model " ++ dquote ++ modelName m ++ dquote
  | ValidationError m path =>
      modelName m ++ " validation failed: " ++ path ++ ": Path `" ++ path ++
      "` is required."
  | DuplicateKey m path =>
      "E11000 duplicate key error collection: " ++ modelName m ++
      " index: " ++ path
  | StoreError msg => msg
  | IllegalArguments ty1 ty2 => "Illegal arguments: " ++ ty1 ++ ", " ++ ty2
  end.

(** ** Awaited computations

    An awaited call either yields a value or throws; it may change the store
    and it sends operations to it. *)

Inductive result (A : Type) :=
| Ok (a : A)
| Throw (e : Error).
Arguments Ok {A} a.
Arguments Throw {A} e.

Definition M (A : Type) : Type := Store -> result A * Store * list DbOp.

Definition ret {A} (a : A) : M A := fun st => (Ok a, st, []).

Definition throw {A} (e : Error) : M A := fun st => (Throw e, st, []).

Definition bind {A B} (m : M A) (k : A -> M B) : M B :=
  fun st =>
    match m st with
    | (Ok a, st1, t1) =>
        match k a st1 with
        | (r, st2, t2) => (r, st2, (t1 ++ t2)%list)
        end
    | (Throw e, st1, t1) => (Throw e, st1, t1)
    end.

(** [try { body } catch (err) { handler }] *)
Definition try_catch {A} (body : M A) (handler : Error -> M A) : M A :=
  fun st =>
    match body st with
    | (Ok a, st1, t1) => (Ok a, st1, t1)
    | (Throw e, st1, t1) =>
        match handler e st1 with
        | (r, st2, t2) => (r, st2, (t1 ++ t2)%list)
        end
    end.

Declare Scope await_scope.
Delimit Scope await_scope with await.
Notation "x <- m ;; k" := (bind m (fun x => k))
  (at level 61, m at next level, right associativity) : await_scope.
Notation "m ;; k" := (bind m (fun _ => k))
  (at level 61, right associativity) : await_scope.
Local Open Scope await_scope.

(** An operation [op] reaches the store: it is recorded, and fails when the
    connection is down. *)
Definition send (op : DbOp) : M unit :=
  fun st =>
    match db_error st with
    | Some msg => (Throw (StoreError msg), st, [op])
    | None => (Ok tt, st, [op])
    end.

Definition get_store : M Store := fun st => (Ok st, st, []).

Definition put_store (st' : Store) : M unit := fun _ => (Ok tt, st', []).

(** Cast of a query or path value to ObjectId. *)
Definition cast_id (m : Model) (path : string) (s : string) : M ObjectId :=
  match castObjectId s with
  | Some i => ret i
  | None => throw (CastError s path m)
  end.

(** The [required] validator of a [String] path: the value must be a
    non-empty string. *)
Definition required (m : Model) (path : string) (v : option string) : M string :=
  match v with
  | Some (String c r) => ret (String c r)
  | _ => throw (ValidationError m path)
  end.

(** ** The models *)

Definition by_id {D} (id_of : D -> ObjectId) (i : ObjectId) (d : D) : bool :=
  oid_eqb (id_of d) i.

Module Series.

(** [Series.find()] *)
Definition find : M (list SeriesDoc) :=
  send (Query MSeries);;
  st <- get_store;;
  ret (series_coll st).

(** [Series.findById(id)].  [findById(undefined)] is the query
    [{ _id: null }], which matches nothing. *)
Definition findById (id : option string) : M (option SeriesDoc) :=
  match id with
  | None => send (Query MSeries);; ret None
  | Some s =>
      i <- cast_id MSeries "_id" s;;
      send (Query MSeries);;
      st <- get_store;;
      ret (List.find (by_id series_id i) (series_coll st))
  end.

(** [new Series({ name }).save()], the new document's [_id] being [i]:
    validation, then the insert, which the unique indexes on [_id] and
    [name] may refuse. *)
Definition save (i : ObjectId) (name : option string) : M unit :=
  n <- required MSeries "name" name;;
  send (Insert MSeries);;
  st <- get_store;;
  if existsb (by_id series_id i) (series_coll st)
  then throw (DuplicateKey MSeries "_id_")
  else if existsb (fun d => String.eqb (series_name d) n) (series_coll st)
  then throw (DuplicateKey MSeries "name_1")
  else put_store (with_series st (mkSeries i n)).

End Series.

Module Product.

(** A product read with [.populate('series', 'name')]: the document and
    the Series its [series] path resolves to, if any. *)
Definition populated : Type := ProductDoc * option SeriesDoc.

Definition resolve (ss : list SeriesDoc) (p : ProductDoc) : populated :=
  (p, match series p with
      | Some i => List.find (by_id series_id i) ss
      | None => None
      end).

Definition has_series (p : ProductDoc) : bool :=
  match series p with Some _ => true | None => false end.

(** [.populate('series', 'name')]: one query on Series when some document
    has the path set. *)
Definition populate (ps : list ProductDoc) : M (list populated) :=
  if existsb has_series ps then
    send (Query MSeries);;
    st <- get_store;;
    ret (map (resolve (series_coll st)) ps)
  else ret (map (resolve []) ps).

(** [Product.find().populate('series', 'name')] *)
Definition find_populate : M (list populated) :=
  send (Query MProduct);;
  st <- get_store;;
  populate (product_coll st).

Definition in_series (i : ObjectId) (p : ProductDoc) : bool :=
  match series p with Some j => oid_eqb j i | None => false end.

(** [Product.find({ series: seriesId }).populate('series', 'name')] *)
Definition find_by_series_populate (seriesId : string) : M (list populated) :=
  i <- cast_id MProduct "series" seriesId;;
  send (Query MProduct);;
  st <- get_store;;
  populate (filter (in_series i) (product_coll st)).

(** [Product.findById(id).populate('series', 'name')] *)
Definition findById_populate (id : string) : M (option populated) :=
  i <- cast_id MProduct "_id" id;;
  send (Query MProduct);;
  st <- get_store;;
  match List.find (by_id product_id i) (product_coll st) with
  | None => ret None
  | Some p =>
      l <- populate [p];;
      ret (hd_error l)
  end.

(** [newProduct.save()]: no path is required; the insert is refused when
    the [_id] is taken. *)
Definition save (p : ProductDoc) : M unit :=
  send (Insert MProduct);;
  st <- get_store;;
  if existsb (by_id product_id (product_id p)) (product_coll st)
  then throw (DuplicateKey MProduct "_id_")
  else put_store (with_product st p).

End Product.

Module User.

(** [User.findOne({ username })] for a string [username]. *)
Definition findOne (u : string) : M (option UserDoc) :=
  send (Query MUser);;
  st <- get_store;;
  ret (List.find (fun d => String.eqb (username d) u) (user_coll st)).

(** [new User({ username, password }).save()], the new document's [_id]
    being [i]. *)
Definition save (i : ObjectId) (u : option string) (pw : string) : M unit :=
  u <- required MUser "username" u;;
  pw <- required MUser "password" (Some pw);;
  send (Insert MUser);;
  st <- get_store;;
  if existsb (by_id user_id i) (user_coll st)
  then throw (DuplicateKey MUser "_id_")
  else if existsb (fun d => String.eqb (username d) u) (user_coll st)
  then throw (DuplicateKey MUser "username_1")
  else put_store (with_user st (mkUser i u pw)).

End User.

(** ** Serialisation of documents by [res.json]

    A path that is not set does not appear; a populated path whose
    reference resolves to nothing is [null].  Populating with the
    projection ['name'] keeps [_id] and [name]. *)

Definition opt_field {A} (k : string) (f : A -> json) (v : option A)
  : list (string * json) :=
  match v with
  | Some a => [(k, f a)]
  | None => []
  end.

Definition series_json (s : SeriesDoc) : json :=
  JObj [("_id", JStr (toHexString (series_id s)));
        ("name", JStr (series_name s));
        ("__v", JNum 0)].

Definition populated_series_json (s : option SeriesDoc) : json :=
  match s with
  | Some s => JObj [("_id", JStr (toHexString (series_id s)));
                    ("name", JStr (series_name s))]
  | None => JNull
  end.

Definition product_json (ps : Product.populated) : json :=
  let (p, s) := ps in
  JObj ([("_id", JStr (toHexString (product_id p)))]
        ++ opt_field "name" JStr (name p)
        ++ opt_field "capacity" JStr (capacity p)
        ++ opt_field "color" JStr (color p)
        ++ opt_field "code" JStr (code p)
        ++ opt_field "battery" JStr (battery p)
        ++ opt_field "condition" JStr (condition p)
        ++ opt_field "sellingPrice" JNum (sellingPrice p)
        ++ opt_field "purchasePrice" JNum (purchasePrice p)
        ++ opt_field "source" JStr (source p)
        ++ opt_field "series" (fun _ => populated_series_json s) (series p)
        ++ [("__v", JNum 0)])%list.

(** ** Responses *)

Inductive Body :=
| Text (s : string)
| Json (j : json).

Record Response := mkResponse {
  status : nat;
  body : Body
}.

(** [res.status(c).send(s)] *)
Definition send_status (c : nat) (s : string) : Response := mkResponse c (Text s).

(** [res.json(j)] *)
Definition res_json (j : json) : Response := mkResponse 200 (Json j).

(** What becomes of a request handled by an [async] function: a response
    was sent, or the function's promise was rejected with nothing sent by
    the handler. *)
Inductive Outcome :=
| Responded (r : Response)
| Rejected (e : Error).

Definition Handler : Type := Store -> Outcome * Store * list DbOp.

Definition async (m : M Response) : Handler :=
  fun st =>
    match m st with
    | (Ok r, st', t) => (Responded r, st', t)
    | (Throw e, st', t) => (Rejected e, st', t)
    end.

(** The three components of a handled request. *)
Definition outcome (r : Outcome * Store * list DbOp) : Outcome := fst (fst r).
Definition store_after (r : Outcome * Store * list DbOp) : Store := snd (fst r).
Definition trace (r : Outcome * Store * list DbOp) : list DbOp := snd r.

Definition is_string (v : option json) : bool :=
  match v with
  | Some (JStr _) => true
  | _ => false
  end.

(** The Series a [seriesId] taken from a request resolves to. *)
Definition resolve_series (seriesId : option string) (st : Store)
  : option SeriesDoc :=
  match seriesId with
  | Some s =>
      match castObjectId s with
      | Some i => List.find (by_id series_id i) (series_coll st)
      | None => None
      end
  | None => None
  end.

(** An absent [seriesId], or one that is the hexadecimal form of an
    ObjectId. *)
Definition well_formed (seriesId : option string) : bool :=
  match seriesId with
  | Some s => match castObjectId s with Some _ => true | None => false end
  | None => true
  end.

(** The products whose [series] path is [i]. *)
Definition referencing (i : ObjectId) (st : Store) : list ProductDoc :=
  filter (Product.in_series i) (product_coll st).

(** [j.series.name] *)
Definition series_name_of (j : json) : option json :=
  match json_field "series" j with
  | Some s => json_field "name" s
  | None => None
  end.

(** The document [POST /api/products] builds from a request body, with the
    [_id] [i] and the Series [sid]. *)
Definition new_product (i : ObjectId) (b : ProductBody) (sid : ObjectId)
  : ProductDoc :=
  mkProduct i (body_name b) (body_capacity b) (body_color b) (body_code b)
            (body_battery b) (body_condition b) (body_sellingPrice b)
            (body_purchasePrice b) (body_source b) (Some sid).

(** What the process draws from outside the request while handling it: the
    ObjectId the driver generates for a new document, the random bytes
    bcrypt turns into a salt, and the clock (seconds). *)
Record Env := mkEnv {
  new_ObjectId : ObjectId;
  salt_entropy : string;
  now : Z
}.

(** Decoded token payload. *)
Record Claims := mkClaims {
  id : string;
  claim_username : string;
  iat : Z;
  exp : Z
}.

(** The part of [req] the token middleware reads and writes. *)
Record Request := mkRequest {
  authorization : option string;
  user : option Claims
}.

(** What a middleware does with a request: answer it, or call [next()]
    with the request as it then is. *)
Inductive Middleware :=
| Respond (r : Response)
| Next (req : Request).

(** The alphabet of the three segments of a compact JWS (base64url). *)
Definition base64url_char (c : ascii) : bool :=
  let n := N_of_ascii c in
  ((48 <=? n) && (n <=? 57) || (65 <=? n) && (n <=? 90)
   || (97 <=? n) && (n <=? 122) || (n =? 45) || (n =? 95))%N.

(** A compact JWS is made of base64url characters and dots only. *)
Fixpoint jws_chars (s : string) : bool :=
  match s with
  | EmptyString => true
  | String c r => (base64url_char c || Ascii.eqb c ".") && jws_chars r
  end.

(** ** A reference instance of the two libraries

    A small executable instance of the library interface of the next
    section, on which the statements about the server are exercised at
    concrete requests: the digest keeps the password next to its salt, and a
    token spells out its payload and its key in hexadecimal, one segment
    each. *)

Module Reference.

Fixpoint starts_with (pre s : string) : bool :=
  match pre, s with
  | EmptyString, _ => true
  | String a pre', String b s' => Ascii.eqb a b && starts_with pre' s'
  | String _ _, EmptyString => false
  end.

Definition digest (p : string) (rounds : N) (entropy : string) : string :=
  "$" ++ p ++ "$" ++ entropy.

Definition matches (p hash : string) : bool :=
  starts_with ("$" ++ p ++ "$") hash.

Definition segment (s rest : string) : string :=
  bytes_hex (list_byte_of_string s) ++ String "." rest.

Definition sign (c : Claims) (key : string) : string :=
  segment (id c)
    (segment (claim_username c)
       (segment (HexString.of_Z (iat c))
          (segment (HexString.of_Z (exp c))
             (segment key EmptyString)))).

(** Reads hexadecimal byte pairs up to the first character that is not
    one. *)
Fixpoint take_hex (s : string) : list byte * string :=
  match s with
  | String c1 (String c2 r) =>
      match hexval c1, hexval c2 with
      | Some h, Some l =>
          match Byte.of_N (16 * h + l)%N with
          | Some b => let (bs, rest) := take_hex r in (b :: bs, rest)
          | None => ([], s)
          end
      | _, _ => ([], s)
      end
  | _ => ([], s)
  end.

Definition read_segment (s : string) : option (string * string) :=
  match take_hex s with
  | (bs, String "." rest) => Some (string_of_list_byte bs, rest)
  | _ => None
  end.

Definition decode (token : string) : option (Claims * string) :=
  match read_segment token with
  | Some (i, r1) =>
    match read_segment r1 with
    | Some (u, r2) =>
      match read_segment r2 with
      | Some (t0, r3) =>
        match read_segment r3 with
        | Some (t1, r4) =>
          match read_segment r4 with
          | Some (key, EmptyString) =>
              Some (mkClaims i u (HexString.to_Z t0) (HexString.to_Z t1), key)
          | _ => None
          end
        | None => None
        end
      | None => None
      end
    | None => None
    end
  | None => None
  end.

(** A token verifies when it is the signature of its payload under the
    key and has not expired. *)
Definition verify (token key : string) (t : Z) : option Claims :=
  match decode token with
  | Some (c, key') =>
      if String.eqb key key' && (t <? exp c)%Z && String.eqb token (sign c key)
      then Some c
      else None
  | None => None
  end.

End Reference.

(** ** Sample data *)

Definition sample_id (b : byte) : ObjectId :=
  mkObjectId x65 x0a x1b x2c x3d x4e x5f x60 x00 x00 x00 b.

Definition empty_store : Store := mkStore [] [] [] None.

Definition sample_env (b : byte) : Env := mkEnv (sample_id b) "c2FsdA" 1700000000.

Definition sample_series : SeriesDoc := mkSeries (sample_id x01) "iPhone 15".

Definition sample_product : ProductDoc :=
  mkProduct (sample_id x02) (Some "iPhone 15 Pro") (Some "256GB") (Some "Black")
            (Some "IP15P-256") (Some "100%") (Some "New") (Some 1200%Z)
            (Some 950%Z) (Some "Distributor A") (Some (sample_id x01)).

Definition sample_store : Store :=
  mkStore [sample_series] [sample_product] [] None.

Definition sample_claims : Claims :=
  mkClaims (toHexString (sample_id x21)) "alice" 1700000000 1700003600.

Definition sample_secret : string := "top-secret".

Definition sample_token : string := Reference.sign sample_claims sample_secret.

Definition alice : UserDoc :=
  mkUser (sample_id x21) "alice" (Reference.digest "correct horse" 10 "c2FsdA").

Definition alice_store : Store := mkStore [] [] [alice] None.

Definition down_store : Store :=
  mkStore [sample_series] [sample_product] []
          (Some "connect ECONNREFUSED 127.0.0.1:27017").

Definition sample_body (sid : option string) : ProductBody :=
  mkProductBody (Some "iPhone 15 Pro") (Some "256GB") (Some "Black")
                (Some "IP15P-256") (Some "100%") (Some "New") (Some 1200%Z)
                (Some 950%Z) (Some "Distributor A") sid.

Section Server.

Set Default Proof Using "Type".

(** *** bcryptjs and jsonwebtoken

    [bcrypt_digest p rounds entropy] is the hash [bcrypt.hash] resolves
    to for the string [p], [bcrypt_matches p h] what [bcrypt.compare]
    resolves to for the strings [p] and [h].  [jws_sign c secret] is the
    token [jwt.sign] returns for the payload [c], and
    [jws_verify token secret t] the payload [jwt.verify] decodes at time
    [t], [None] when it reports an error. *)
Variable bcrypt_digest : string -> N -> string -> string.
Variable bcrypt_matches : string -> string -> bool.
Variable jws_sign : Claims -> string -> string.
Variable jws_verify : string -> string -> Z -> option Claims.

(** [process.env.JWT_SECRET], taken to be set. *)
Variable JWT_SECRET : string.

(** [bcrypt.hash(s, rounds)]: anything but a string is refused. *)
Definition bcrypt_hash (env : Env) (s : option json) (rounds : N) : M string :=
  match s with
  | Some (JStr p) => ret (bcrypt_digest p rounds (salt_entropy env))
  | _ => throw (IllegalArguments (typeof s) "number")
  end.

(** [bcrypt.compare(s, hash)] for a stored (string) [hash]. *)
Definition bcrypt_compare (s : option json) (hash : string) : M bool :=
  match s with
  | Some (JStr p) => ret (bcrypt_matches p hash)
  | _ => throw (IllegalArguments (typeof s) "string")
  end.

(** [jwt.sign({ id, username }, secret, { expiresIn })], [expiresIn] in
    seconds. *)
Definition jwt_sign (env : Env) (i : ObjectId) (u : string) (secret : string)
           (expiresIn : Z) : string :=
  jws_sign (mkClaims (toHexString i) u (now env) (now env + expiresIn)) secret.

(** *** Middleware to verify token *)
Definition verifyToken (env : Env) (req : Request) : Middleware :=
  match authorization req with
  | None | Some EmptyString => Respond (send_status 403 "Token is required")
  | Some token =>
      match jws_verify token JWT_SECRET (now env) with
      | None => Respond (send_status 500 "Invalid Token")
      | Some decoded => Next (mkRequest (authorization req) (Some decoded))
      end
  end.

(** [app.get(path, mw, handler)] *)
Definition guarded (mw : Request -> Middleware) (handler : Request -> Handler)
           (req : Request) : Handler :=
  match mw req with
  | Respond r => fun st => (Responded r, st, [])
  | Next req' => handler req'
  end.

Definition server_error (err : Error) : M Response :=
  ret (send_status 500 (message err)).

(** *** Routes *)

(** [POST /api/register]; [req_username] and [req_password] are the
    [username] and [password] of the request body. *)
Definition post_api_register (env : Env) (req_username : option string)
           (req_password : option json) : Handler :=
  async (
    hashedPassword <- bcrypt_hash env req_password 10;;
    try_catch
      (User.save (new_ObjectId env) req_username hashedPassword;;
       ret (send_status 201 "User registered"))
      server_error).

(** [POST /api/login]; [req_username] and [req_password] are the
    [username] and [password] of the request body, the former taken to be
    a string. *)
Definition post_api_login (env : Env) (req_username : string)
           (req_password : option json) : Handler :=
  async (
    try_catch
      (user <- User.findOne req_username;;
       match user with
       | None => ret (send_status 400 "User not found")
       | Some user =>
           validPassword <- bcrypt_compare req_password (password user);;
           if negb validPassword
           then ret (send_status 400 "Invalid password")
           else
             let token := jwt_sign env (user_id user) (username user)
                                   JWT_SECRET 3600 in
             ret (res_json (JObj [("token", JStr token)]))
       end)
      server_error).

(** [POST /api/series] *)
Definition post_api_series (env : Env) (name : option string) : Handler :=
  async (
    try_catch
      (Series.save (new_ObjectId env) name;;
       ret (send_status 201 "Series created successfully"))
      server_error).

(** [GET /api/products] (public route) *)
Definition get_api_products : Handler :=
  async (
    try_catch
      (products <- Product.find_populate;;
       ret (res_json (JArr (map product_json products))))
      server_error).

(** [GET /api/products/full] (protected route): the handler behind the
    middleware, and the route. *)
Definition products_full_handler (req : Request) : Handler :=
  async (
    try_catch
      (products <- Product.find_populate;;
       ret (res_json (JArr (map product_json products))))
      server_error).

Definition get_api_products_full (env : Env) : Request -> Handler :=
  guarded (verifyToken env) products_full_handler.

(** [POST /api/products] *)
Definition post_api_products (env : Env) (b : ProductBody) : Handler :=
  async (
    try_catch
      (series <- Series.findById (seriesId b);;
       match series with
       | None => ret (send_status 400 "Series not found")
       | Some series =>
           let newProduct :=
             mkProduct (new_ObjectId env) (body_name b) (body_capacity b)
                       (body_color b) (body_code b) (body_battery b)
                       (body_condition b) (body_sellingPrice b)
                       (body_purchasePrice b) (body_source b)
                       (Some (series_id series)) in
           Product.save newProduct;;
           ret (send_status 201 "Product created successfully")
       end)
      (fun err =>
         ret (send_status 500 ("Error creating product: " ++ message err)))).

(** [GET /api/series], first declaration *)
Definition get_api_series : Handler :=
  async (
    try_catch
      (series <- Series.find;;
       ret (res_json (JArr (map series_json series))))
      server_error).

(** [GET /api/series], second declaration *)
Definition get_api_series_again : Handler :=
  async (
    try_catch
      (series <- Series.find;;
       ret (res_json (JArr (map series_json series))))
      server_error).

(** Express tries the handlers registered for a path in the order of
    registration and stops at the first that does not call [next()];
    neither declaration takes [next]. *)
Definition dispatch (stack : list Handler) : Handler :=
  match stack with
  | h :: _ => h
  | [] => fun st => (Responded (send_status 404 "Cannot GET"), st, [])
  end.

(** [GET /api/series/:id] *)
Definition get_api_series_id (id : string) : Handler :=
  async (
    try_catch
      (series <- Series.findById (Some id);;
       match series with
       | None => ret (send_status 404 "Series not found")
       | Some series =>
           ret (res_json (JObj [("_id", JStr (toHexString (series_id series)));
                                ("name", JStr (series_name series))]))
       end)
      server_error).

(** [GET /api/products/:id] *)
Definition get_api_products_id (id : string) : Handler :=
  async (
    try_catch
      (product <- Product.findById_populate id;;
       match product with
       | None => ret (send_status 404 "Product not found")
       | Some product => ret (res_json (product_json product))
       end)
      server_error).

(** [GET /api/products/series/:seriesId] *)
Definition get_api_products_series (seriesId : string) : Handler :=
  async (
    try_catch
      (series <- Series.findById (Some seriesId);;
       match series with
       | None => ret (send_status 404 "Series not found")
       | Some _ =>
           products <- Product.find_by_series_populate seriesId;;
           ret (res_json (JArr (map product_json products)))
       end)
      server_error).

(** The user [u] is registered in [st] as [doc] with the password [p]:
    the credential store resolves the name to [doc], whose stored password
    is a digest of [p] at cost 10. *)
Definition registered (st : Store) (u p : string) (doc : UserDoc) : Prop :=
  List.find (fun d => String.eqb (username d) u) (user_coll st) = Some doc /\
  exists entropy, password doc = bcrypt_digest p 10 entropy.

(** No two users of the credential store share a name. *)
Definition unique_usernames (st : Store) : Prop :=
  NoDup (map username (user_coll st)).

(** *** The API as a whole

    A request that Express has matched to its route, with what the route
    reads from it. *)
Inductive Call :=
| PostRegister (req_username : option string) (req_password : option json)
| PostLogin (req_username : string) (req_password : option json)
| PostSeries (req_name : option string)
| GetProducts
| GetProductsFull (req : Request)
| PostProducts (b : ProductBody)
| GetSeries
| GetSeriesId (id : string)
| GetProductsId (id : string)
| GetProductsSeries (seriesId : string).

(** The route table, in the order of the [app.post] and [app.get] calls. *)
Definition serve (env : Env) (c : Call) : Handler :=
  match c with
  | PostRegister u pw => post_api_register env u pw
  | PostLogin u pw => post_api_login env u pw
  | PostSeries n => post_api_series env n
  | GetProducts => get_api_products
  | GetProductsFull req => get_api_products_full env req
  | PostProducts b => post_api_products env b
  | GetSeries => dispatch [get_api_series; get_api_series_again]
  | GetSeriesId i => get_api_series_id i
  | GetProductsId i => get_api_products_id i
  | GetProductsSeries i => get_api_products_series i
  end.

(** The three routes that call [save]. *)
Definition saves (c : Call) : bool :=
  match c with
  | PostRegister _ _ | PostSeries _ | PostProducts _ => true
  | _ => false
  end.

Definition is_insert (op : DbOp) : bool :=
  match op with
  | Insert _ => true
  | Query _ => false
  end.

(** What one request can do to the store: nothing, or append one document
    that passed validation and the unique indexes; a product is appended
    with a reference to a Series of the store. *)
Inductive appended (env : Env) (st : Store) : Store -> Prop :=
| appended_nothing : appended env st st
| appended_series (n : string) :
    n <> "" ->
    existsb (by_id series_id (new_ObjectId env)) (series_coll st) = false ->
    existsb (fun d => String.eqb (series_name d) n) (series_coll st) = false ->
    appended env st (with_series st (mkSeries (new_ObjectId env) n))
| appended_product (b : ProductBody) (s : SeriesDoc) :
    In s (series_coll st) ->
    existsb (by_id product_id (new_ObjectId env)) (product_coll st) = false ->
    appended env st
             (with_product st (new_product (new_ObjectId env) b (series_id s)))
| appended_user (n h : string) :
    n <> "" -> h <> "" ->
    existsb (by_id user_id (new_ObjectId env)) (user_coll st) = false ->
    existsb (fun d => String.eqb (username d) n) (user_coll st) = false ->
    appended env st (with_user st (mkUser (new_ObjectId env) n h)).

(** A request gets as far as the store when it passes what its route
    checks before the first store operation: for a registration, a string
    password whose hash and a username that both pass validation; for a
    Series, a name that passes validation; for the protected listing, a
    token that verifies; for a route with an id parameter or a [seriesId],
    a value that casts to ObjectId (an absent [seriesId] is looked up as
    [null]). *)
Definition reaches_store (env : Env) (c : Call) : bool :=
  match c with
  | PostRegister (Some (String _ _)) (Some (JStr p)) =>
      negb (String.eqb (bcrypt_digest p 10 (salt_entropy env)) "")
  | PostRegister _ _ => false
  | PostLogin _ _ => true
  | PostSeries (Some (String _ _)) => true
  | PostSeries _ => false
  | GetProducts => true
  | GetProductsFull req =>
      match authorization req with
      | Some (String a r) =>
          match jws_verify (String a r) JWT_SECRET (now env) with
          | Some _ => true
          | None => false
          end
      | _ => false
      end
  | PostProducts b => well_formed (seriesId b)
  | GetSeries => true
  | GetSeriesId id | GetProductsId id | GetProductsSeries id =>
      match castObjectId id with Some _ => true | None => false end
  end.

(** The first operation a route sends to the store. *)
Definition first_operation (c : Call) : DbOp :=
  match c with
  | PostRegister _ _ => Insert MUser
  | PostLogin _ _ => Query MUser
  | PostSeries _ => Insert MSeries
  | GetProducts | GetProductsFull _ | GetProductsId _ => Query MProduct
  | PostProducts _ | GetSeries | GetSeriesId _ | GetProductsSeries _ =>
      Query MSeries
  end.

(** What the [catch] of a route puts before [err.message]. *)
Definition error_prefix (c : Call) : string :=
  match c with
  | PostProducts _ => "Error creating product: "
  | _ => ""
  end.

(** *** Invariants of the store *)

(** No two documents of a collection share an [_id]. *)
Definition ids_unique (st : Store) : Prop :=
  NoDup (map series_id (series_coll st)) /\
  NoDup (map product_id (product_coll st)) /\
  NoDup (map user_id (user_coll st)).

(** No two Series share a name. *)
Definition unique_series_names (st : Store) : Prop :=
  NoDup (map series_name (series_coll st)).

(** Every product refers to a Series of the store. *)
Definition references_resolve (st : Store) : Prop :=
  forall p, In p (product_coll st) ->
            exists s, In s (series_coll st) /\ series p = Some (series_id s).

(** The [required] paths of the stored documents are non-empty strings. *)
Definition required_paths_set (st : Store) : Prop :=
  (forall s, In s (series_coll st) -> series_name s <> "") /\
  (forall u, In u (user_coll st) -> username u <> "" /\ password u <> "").

(** The stores reached from an empty database by requests to the API;
    between two requests the connection may go down or come back. *)
Inductive reachable : Store -> Prop :=
| reachable_empty (e : option string) : reachable (mkStore [] [] [] e)
| reachable_serve (env : Env) (c : Call) (st : Store) :
    reachable st -> reachable (store_after (serve env c st))
| reachable_connection (st : Store) (e : option string) :
    reachable st ->
    reachable (mkStore (series_coll st) (product_coll st) (user_coll st) e).

(** The record [res.json] sends for a product of the store [st]. *)
Definition product_record (st : Store) (p : ProductDoc) : json :=
  product_json (Product.resolve (series_coll st) p).

(** * Properties *)

(** ** ObjectId and its hexadecimal form *)

Lemma byte_hex_digits (b : byte) :
  hexval (hexdigit (Byte.to_N b / 16)%N) = Some (Byte.to_N b / 16)%N /\
  hexval (hexdigit (Byte.to_N b mod 16)%N) = Some (Byte.to_N b mod 16)%N /\
  Byte.of_N (16 * (Byte.to_N b / 16) + Byte.to_N b mod 16)%N = Some b.
Proof. destruct b; vm_compute; repeat split. Qed.

Lemma hex_bytes_hex (l : list byte) : hex_bytes (bytes_hex l) = Some l.
Proof.
  induction l as [|b r IH]; [reflexivity|].
  destruct (byte_hex_digits b) as (Hh & Hl & Hb).
  cbn [bytes_hex byte_hex hex_bytes].
  rewrite Hh, Hl, IH, Hb. reflexivity.
Qed.

Lemma castObjectId_toHexString (i : ObjectId) :
  castObjectId (toHexString i) = Some i.
Proof.
  unfold castObjectId, toHexString. rewrite hex_bytes_hex.
  destruct i; reflexivity.
Qed.

Lemma bytes_eqb_eq (l1 l2 : list byte) : bytes_eqb l1 l2 = true <-> l1 = l2.
Proof.
  revert l2; induction l1 as [|a r IH]; intros [|b r2]; cbn; try easy.
  rewrite andb_true_iff, IH. split.
  - intros [H ->]. apply Byte.byte_dec_bl in H. now subst.
  - intros [= -> ->]. split; [apply Byte.byte_dec_lb|]; reflexivity.
Qed.

Lemma oid_eqb_eq (i j : ObjectId) : oid_eqb i j = true <-> i = j.
Proof.
  unfold oid_eqb. rewrite bytes_eqb_eq. split; [|now intros ->].
  destruct i, j; cbn. now intros [= -> -> -> -> -> -> -> -> -> -> -> ->].
Qed.

(** ** Running a handler *)

(** Statements that mention none of the library functions are proved
    without them. *)
Ltac no_libs :=
  clear bcrypt_digest bcrypt_matches jws_sign jws_verify JWT_SECRET.

Ltac unfold_await :=
  unfold server_error, cast_id, required, async, try_catch, bind, ret,
    throw, send, get_store, put_store.

(** ** [GET /api/series] *)

Lemma get_api_series_ok (st : Store) :
  db_error st = None ->
  get_api_series st =
  (Responded (res_json (JArr (map series_json (series_coll st)))), st,
   [Query MSeries]).
Proof.
  intros Hdb. unfold get_api_series, Series.find. unfold_await.
  rewrite Hdb. reflexivity.
Qed.

Lemma get_api_series_down (st : Store) (msg : string) :
  db_error st = Some msg ->
  get_api_series st = (Responded (send_status 500 msg), st, [Query MSeries]).
Proof.
  intros Hdb. unfold get_api_series, Series.find. unfold_await.
  rewrite Hdb. reflexivity.
Qed.

(** C8. The two handlers declared for [GET /api/series] answer every
    store with the same response, leave it in the same state and send it
    the same operations; that response is the list of all Series when the
    store answers and a 500 carrying the error message when it fails; and
    the stack made of both declarations behaves as either alone. *)
Theorem get_api_series_declared_twice (st : Store) :
  get_api_series st = get_api_series_again st /\
  dispatch [get_api_series; get_api_series_again] st = get_api_series st /\
  dispatch [get_api_series; get_api_series_again] st =
    dispatch [get_api_series_again] st /\
  match db_error st with
  | None =>
      get_api_series st =
      (Responded (mkResponse 200 (Json (JArr (map series_json (series_coll st))))),
       st, [Query MSeries])
  | Some msg =>
      get_api_series st =
      (Responded (mkResponse 500 (Text msg)), st, [Query MSeries])
  end.
Proof.
  repeat split.
  destruct (db_error st) as [msg|] eqn:Hdb.
  - now apply get_api_series_down.
  - now apply get_api_series_ok.
Qed.

(** ** [POST /api/register] *)

(** C9. The password is hashed before the [try]: when the request's
    password is absent or is not a string, hashing throws, the handler's
    promise is rejected with bcrypt's error, no response is sent by the
    handler (neither the 201 nor the 500 of its [catch]), and the store is
    neither changed nor contacted. *)
Theorem register_without_string_password
        (env : Env) (username : option string) (password : option json)
        (st : Store) :
  is_string password = false ->
  post_api_register env username password st =
    (Rejected (IllegalArguments (typeof password) "number"), st, []) /\
  (forall r, outcome (post_api_register env username password st)
             <> Responded r).
Proof.
  intros Hpw.
  assert (H : post_api_register env username password st =
              (Rejected (IllegalArguments (typeof password) "number"), st, [])).
  { unfold post_api_register, bcrypt_hash. unfold_await.
    destruct password as [[| | | |l|f]|]; cbn in Hpw; try discriminate;
      reflexivity. }
  split; [exact H|]. intros r. rewrite H. cbn. discriminate.
Qed.

(** ** The token middleware and [GET /api/products/full] *)

Lemma verifyToken_next (env : Env) (req req' : Request) :
  verifyToken env req = Next req' ->
  exists token decoded,
    authorization req = Some token /\ token <> "" /\
    jws_verify token JWT_SECRET (now env) = Some decoded /\
    req' = mkRequest (authorization req) (Some decoded).
Proof.
  unfold verifyToken. destruct (authorization req) as [[|c r]|]; try discriminate.
  destruct (jws_verify _ _ _) as [decoded|] eqn:Hv; try discriminate.
  intros [= <-]. exists (String c r), decoded. repeat split; congruence.
Qed.

Lemma verifyToken_accepts (env : Env) (req : Request) (token : string)
      (decoded : Claims) :
  authorization req = Some token -> token <> "" ->
  jws_verify token JWT_SECRET (now env) = Some decoded ->
  verifyToken env req = Next (mkRequest (Some token) (Some decoded)).
Proof.
  intros Ha Hne Hv. unfold verifyToken. rewrite Ha.
  destruct token as [|c r]; [congruence|]. now rewrite Hv.
Qed.

Lemma verifyToken_rejects (env : Env) (req : Request) (token : string) :
  authorization req = Some token -> token <> "" ->
  jws_verify token JWT_SECRET (now env) = None ->
  verifyToken env req = Respond (send_status 500 "Invalid Token").
Proof.
  intros Ha Hne Hv. unfold verifyToken. rewrite Ha.
  destruct token as [|c r]; [congruence|]. now rewrite Hv.
Qed.

Lemma products_full_handler_trace (req : Request) (st : Store) :
  exists t, trace (products_full_handler req st) = Query MProduct :: t.
Proof.
  unfold products_full_handler, Product.find_populate, Product.populate.
  unfold_await. destruct (db_error st) eqn:Hdb; cbn; [eauto|].
  destruct (existsb _ _); cbn; rewrite ?Hdb; cbn; eauto.
Qed.

(** C3. On [GET /api/products/full]: without an Authorization header the
    answer is 403 and the handler is not run (nothing reaches the store);
    with a token that [jwt.verify] refuses (bad signature, expired) the
    answer is 500, again without the handler; and the handler runs exactly
    when the token verifies, on a request carrying the decoded claims, its
    first act being the product query. *)
Theorem get_api_products_full_guard (env : Env) (req : Request) (st : Store) :
  (authorization req = None ->
   get_api_products_full env req st =
     (Responded (mkResponse 403 (Text "Token is required")), st, [])) /\
  (forall token,
     authorization req = Some token -> token <> "" ->
     jws_verify token JWT_SECRET (now env) = None ->
     get_api_products_full env req st =
       (Responded (mkResponse 500 (Text "Invalid Token")), st, [])) /\
  (forall token decoded,
     authorization req = Some token -> token <> "" ->
     jws_verify token JWT_SECRET (now env) = Some decoded ->
     verifyToken env req = Next (mkRequest (Some token) (Some decoded)) /\
     get_api_products_full env req st =
       products_full_handler (mkRequest (Some token) (Some decoded)) st /\
     exists t, trace (get_api_products_full env req st) = Query MProduct :: t) /\
  (forall req',
     verifyToken env req = Next req' ->
     exists token decoded,
       authorization req = Some token /\
       jws_verify token JWT_SECRET (now env) = Some decoded /\
       user req' = Some decoded).
Proof.
  repeat apply conj.
  - intros Ha. unfold get_api_products_full, guarded, verifyToken.
    now rewrite Ha.
  - intros token Ha Hne Hv. unfold get_api_products_full, guarded.
    now rewrite (verifyToken_rejects env req token Ha Hne Hv).
  - intros token decoded Ha Hne Hv.
    pose proof (verifyToken_accepts env req token decoded Ha Hne Hv) as Hn.
    assert (He : get_api_products_full env req st =
                 products_full_handler (mkRequest (Some token) (Some decoded)) st).
    { unfold get_api_products_full, guarded. now rewrite Hn. }
    repeat split; [exact Hn | exact He |].
    rewrite He. apply products_full_handler_trace.
  - intros req' Hn.
    destruct (verifyToken_next env req req' Hn) as (token & decoded & Ha & _ & Hv & ->).
    now exists token, decoded.
Qed.

(** The handler behind the middleware is the public handler. *)
Lemma products_full_handler_public (req : Request) (st : Store) :
  products_full_handler req st = get_api_products st.
Proof. reflexivity. Qed.

Section Compact.

(** [jwt.verify] decodes nothing but compact JWS strings. *)
Hypothesis jws_verify_compact :
  forall token key t decoded,
    jws_verify token key t = Some decoded -> jws_chars token = true.

Lemma bearer_not_compact (t : string) : jws_chars ("Bearer " ++ t) = false.
Proof. reflexivity. Qed.

(** C10. The middleware hands the whole header value to [jwt.verify]:
    a header made of the scheme prefix and a token, whatever the token
    and in particular one that verifies on its own, is refused and
    answered with 500 without running the handler; the bare token is
    accepted; and whenever the middleware lets a request through, it is
    the header value itself that verified. *)
Theorem bearer_scheme_rejected (env : Env) (req : Request) (st : Store)
        (t : string) :
  authorization req = Some ("Bearer " ++ t) ->
  verifyToken env req = Respond (mkResponse 500 (Text "Invalid Token")) /\
  get_api_products_full env req st =
    (Responded (mkResponse 500 (Text "Invalid Token")), st, []) /\
  (forall decoded,
     t <> "" -> jws_verify t JWT_SECRET (now env) = Some decoded ->
     verifyToken env (mkRequest (Some t) (user req)) =
       Next (mkRequest (Some t) (Some decoded))) /\
  (forall env' req0 req',
     verifyToken env' req0 = Next req' ->
     exists header decoded,
       authorization req0 = Some header /\
       jws_verify header JWT_SECRET (now env') = Some decoded).
Proof using jws_verify_compact.
  intros Ha.
  assert (Hv : jws_verify ("Bearer " ++ t) JWT_SECRET (now env) = None).
  { destruct (jws_verify _ _ _) as [d|] eqn:E; [|reflexivity].
    apply jws_verify_compact in E. rewrite bearer_not_compact in E.
    discriminate. }
  assert (Hr : verifyToken env req = Respond (send_status 500 "Invalid Token")).
  { apply (verifyToken_rejects env req ("Bearer " ++ t)); auto. discriminate. }
  repeat apply conj.
  - exact Hr.
  - unfold get_api_products_full, guarded. now rewrite Hr.
  - intros decoded Hne Hd.
    now apply (verifyToken_accepts env _ t decoded).
  - intros env' req0 req' Hn.
    destruct (verifyToken_next env' req0 req' Hn) as (tok & d & Hh & _ & Hd & _).
    now exists tok, d.
Qed.

End Compact.

(** ** Lookups *)

Lemma assoc_app {A} (k : string) (l1 l2 : list (string * A)) :
  assoc k (l1 ++ l2) =
  match assoc k l1 with Some v => Some v | None => assoc k l2 end.
Proof.
  induction l1 as [|[k' v] r IH]; cbn; [reflexivity|].
  destruct (String.eqb k k'); [reflexivity|exact IH].
Qed.

Lemma assoc_opt_field {A} (k k' : string) (f : A -> json) (v : option A) :
  assoc k (opt_field k' f v) =
  if String.eqb k k' then option_map f v else None.
Proof. destruct v; cbn; destruct (String.eqb k k'); reflexivity. Qed.

Lemma product_json_series (p : ProductDoc) (s : option SeriesDoc) (i : ObjectId) :
  series p = Some i ->
  json_field "series" (product_json (p, s)) = Some (populated_series_json s).
Proof.
  intros Hs. unfold product_json, json_field.
  repeat (rewrite assoc_app, ?assoc_opt_field; cbn).
  now rewrite Hs.
Qed.

Lemma product_json_purchasePrice (p : ProductDoc) (s : option SeriesDoc) :
  json_field "purchasePrice" (product_json (p, s)) =
  option_map JNum (purchasePrice p).
Proof.
  unfold product_json, json_field.
  repeat (rewrite assoc_app, ?assoc_opt_field; cbn).
  destruct (purchasePrice p); reflexivity.
Qed.

Lemma product_json_source (p : ProductDoc) (s : option SeriesDoc) :
  json_field "source" (product_json (p, s)) = option_map JStr (source p).
Proof.
  unfold product_json, json_field.
  repeat (rewrite assoc_app, ?assoc_opt_field; cbn).
  destruct (source p); reflexivity.
Qed.

Lemma find_app_new {D} (f : D -> bool) (l : list D) (x : D) :
  existsb f l = false -> f x = true -> List.find f (l ++ [x]) = Some x.
Proof.
  intros Hl Hx. induction l as [|a r IH]; cbn in *.
  - now rewrite Hx.
  - apply orb_false_iff in Hl as [Ha Hr]. rewrite Ha. now apply IH.
Qed.

Lemma find_none_existsb {D} (f : D -> bool) (l : list D) :
  List.find f l = None <-> existsb f l = false.
Proof.
  induction l as [|a r IH]; cbn; [easy|].
  destruct (f a); cbn; [easy|exact IH].
Qed.

Lemma by_id_refl {D} (id_of : D -> ObjectId) (d : D) :
  by_id id_of (id_of d) d = true.
Proof. unfold by_id. now apply oid_eqb_eq. Qed.

(** ** [Series.findById] *)

Lemma Series_findById_cast (s : string) (i : ObjectId) (st : Store) :
  db_error st = None -> castObjectId s = Some i ->
  Series.findById (Some s) st =
    (Ok (List.find (by_id series_id i) (series_coll st)), st, [Query MSeries]).
Proof.
  intros Hdb Hc. unfold Series.findById. unfold_await.
  rewrite Hc. cbn. rewrite Hdb. reflexivity.
Qed.

Lemma Series_findById_undefined (st : Store) :
  db_error st = None ->
  Series.findById None st = (Ok None, st, [Query MSeries]).
Proof.
  intros Hdb. unfold Series.findById. unfold_await. now rewrite Hdb.
Qed.

(** ** [POST /api/products] *)

Lemma post_api_products_unresolved (env : Env) (b : ProductBody) (st : Store) :
  db_error st = None -> well_formed (seriesId b) = true ->
  resolve_series (seriesId b) st = None ->
  post_api_products env b st =
    (Responded (send_status 400 "Series not found"), st, [Query MSeries]).
Proof.
  intros Hdb Hwf Hres. unfold post_api_products.
  unfold async, try_catch at 1, bind at 1.
  destruct (seriesId b) as [s|]; cbn in Hwf, Hres.
  - destruct (castObjectId s) as [i|] eqn:Hc; [|discriminate].
    rewrite (Series_findById_cast s i st Hdb Hc), Hres. reflexivity.
  - rewrite (Series_findById_undefined st Hdb). reflexivity.
Qed.

(** C2 (amended). When the [seriesId] of a product-creation request does
    not resolve to a Series, nothing is inserted and the store is left as
    it was; when the store answers and the [seriesId] is absent or is the
    hexadecimal form of an ObjectId, the response is 400 "Series not
    found", sent after the one Series lookup. *)
Theorem post_api_products_unknown_series
        (env : Env) (b : ProductBody) (st : Store) :
  resolve_series (seriesId b) st = None ->
  store_after (post_api_products env b st) = st /\
  ~ In (Insert MProduct) (trace (post_api_products env b st)) /\
  (db_error st = None -> well_formed (seriesId b) = true ->
   post_api_products env b st =
     (Responded (mkResponse 400 (Text "Series not found")), st,
      [Query MSeries])).
Proof.
  no_libs. intros Hres.
  assert (Hgen : store_after (post_api_products env b st) = st /\
                 ~ In (Insert MProduct) (trace (post_api_products env b st))).
  { unfold post_api_products, store_after, trace, Series.findById.
    unfold resolve_series in Hres. unfold_await.
    destruct (seriesId b) as [s|].
    - destruct (castObjectId s) as [i|]; cbn.
      + destruct (db_error st); cbn; [intuition congruence|].
        rewrite Hres. cbn. intuition congruence.
      + intuition.
    - destruct (db_error st); cbn; intuition congruence. }
  destruct Hgen as [H1 H2]. repeat split; [exact H1|exact H2|].
  intros Hdb Hwf. now apply post_api_products_unresolved.
Qed.

Lemma post_api_products_created (env : Env) (b : ProductBody) (st : Store)
      (s : string) (sr : SeriesDoc) :
  db_error st = None ->
  seriesId b = Some s ->
  resolve_series (Some s) st = Some sr ->
  existsb (by_id product_id (new_ObjectId env)) (product_coll st) = false ->
  post_api_products env b st =
    (Responded (send_status 201 "Product created successfully"),
     with_product st (new_product (new_ObjectId env) b (series_id sr)),
     [Query MSeries; Insert MProduct]).
Proof.
  intros Hdb Hb Hres Hfresh. unfold post_api_products.
  unfold async, try_catch at 1, bind at 1. rewrite Hb.
  cbn in Hres. destruct (castObjectId s) as [i|] eqn:Hc; [|discriminate].
  rewrite (Series_findById_cast s i st Hdb Hc), Hres.
  unfold Product.save. unfold_await. cbn. rewrite Hdb. cbn.
  rewrite Hfresh. reflexivity.
Qed.

(** ** [GET /api/products/:id] *)

Lemma get_api_products_id_found (id : string) (i j : ObjectId)
      (p : ProductDoc) (st : Store) :
  db_error st = None -> castObjectId id = Some i ->
  List.find (by_id product_id i) (product_coll st) = Some p ->
  series p = Some j ->
  get_api_products_id id st =
    (Responded
       (res_json (product_json (p, List.find (by_id series_id j) (series_coll st)))),
     st, [Query MProduct; Query MSeries]).
Proof.
  intros Hdb Hc Hf Hs.
  unfold get_api_products_id, Product.findById_populate, Product.populate,
    Product.resolve, Product.has_series.
  unfold_await. rewrite Hc. cbn. rewrite Hdb. cbn. rewrite Hf. cbn.
  rewrite Hs. cbn. rewrite Hdb. cbn. rewrite Hs. reflexivity.
Qed.

Lemma get_api_products_id_missing (id : string) (i : ObjectId) (st : Store) :
  db_error st = None -> castObjectId id = Some i ->
  List.find (by_id product_id i) (product_coll st) = None ->
  get_api_products_id id st =
    (Responded (send_status 404 "Product not found"), st, [Query MProduct]).
Proof.
  intros Hdb Hc Hf.
  unfold get_api_products_id, Product.findById_populate.
  unfold_await. rewrite Hc. cbn. rewrite Hdb. cbn. rewrite Hf. reflexivity.
Qed.

(** ** [POST /api/series] *)

Lemma post_api_series_created (env : Env) (n : string) (st : Store) :
  db_error st = None -> n <> "" ->
  existsb (by_id series_id (new_ObjectId env)) (series_coll st) = false ->
  existsb (fun d => String.eqb (series_name d) n) (series_coll st) = false ->
  post_api_series env (Some n) st =
    (Responded (send_status 201 "Series created successfully"),
     with_series st (mkSeries (new_ObjectId env) n), [Insert MSeries]).
Proof.
  intros Hdb Hn Hid Hname. unfold post_api_series, Series.save.
  unfold_await. destruct n as [|c r]; [congruence|]. cbn.
  rewrite Hdb. cbn. rewrite Hid. cbn in *. rewrite Hname. reflexivity.
Qed.

Lemma post_api_series_201 (env : Env) (name : option string) (st st1 : Store)
      (body : Body) :
  outcome (post_api_series env name st) = Responded (mkResponse 201 body) ->
  exists n,
    name = Some n /\ n <> "" /\ db_error st = None /\
    existsb (by_id series_id (new_ObjectId env)) (series_coll st) = false /\
    existsb (fun d => String.eqb (series_name d) n) (series_coll st) = false.
Proof.
  unfold post_api_series, Series.save, outcome. unfold_await.
  destruct name as [[|c r]|]; cbn; try discriminate.
  destruct (db_error st); cbn; try discriminate.
  destruct (existsb (by_id _ _) _) eqn:Hid; cbn; try discriminate.
  destruct (existsb (fun d => _) _) eqn:Hname; cbn; try discriminate.
  intros _. exists (String c r). repeat split; congruence.
Qed.

(** C7 (amended). Round trip.  From any store in which [POST /api/series]
    with the name "S1" succeeds, creating a product whose [seriesId] is the
    new Series' id (the driver generating an unused product id) succeeds,
    and [GET /api/products/:id] for the new product then answers 200 with
    that product, its [series] expanded to the Series' [_id] and the name
    "S1"; and reading a route parameter that is the hexadecimal form of an
    ObjectId that no product has answers 404, in the store the round trip
    leaves and in any store that answers. *)
Theorem series_product_round_trip
        (env1 env2 : Env) (b : ProductBody) (st : Store) :
  outcome (post_api_series env1 (Some "S1") st) =
    Responded (mkResponse 201 (Text "Series created successfully")) ->
  existsb (by_id product_id (new_ObjectId env2)) (product_coll st) = false ->
  seriesId b = Some (toHexString (new_ObjectId env1)) ->
  let s1 := mkSeries (new_ObjectId env1) "S1" in
  let st1 := store_after (post_api_series env1 (Some "S1") st) in
  let p := new_product (new_ObjectId env2) b (series_id s1) in
  let st2 := store_after (post_api_products env2 b st1) in
  let read := get_api_products_id (toHexString (new_ObjectId env2)) st2 in
  st1 = with_series st s1 /\
  outcome (post_api_products env2 b st1) =
    Responded (mkResponse 201 (Text "Product created successfully")) /\
  st2 = with_product st1 p /\
  outcome read = Responded (mkResponse 200 (Json (product_json (p, Some s1)))) /\
  series_name_of (product_json (p, Some s1)) = Some (JStr "S1") /\
  store_after read = st2 /\
  (forall id i,
     castObjectId id = Some i ->
     List.find (by_id product_id i) (product_coll st2) = None ->
     get_api_products_id id st2 =
       (Responded (mkResponse 404 (Text "Product not found")), st2,
        [Query MProduct])) /\
  (forall st' id i,
     db_error st' = None -> castObjectId id = Some i ->
     List.find (by_id product_id i) (product_coll st') = None ->
     get_api_products_id id st' =
       (Responded (mkResponse 404 (Text "Product not found")), st',
        [Query MProduct])).
Proof.
  intros H201 Hfresh Hb s1 st1 p st2 read.
  destruct (post_api_series_201 env1 _ st st _ H201)
    as (n & [= <-] & Hn & Hdb & Hid & Hname).
  assert (E1 : st1 = with_series st s1).
  { unfold st1. now rewrite (post_api_series_created env1 "S1" st). }
  assert (Hdb1 : db_error st1 = None) by now rewrite E1.
  assert (Hres : resolve_series (Some (toHexString (new_ObjectId env1))) st1
                 = Some s1).
  { unfold resolve_series. rewrite castObjectId_toHexString, E1. cbn.
    apply find_app_new; [exact Hid|]. apply (by_id_refl series_id s1). }
  assert (Hfresh1 : existsb (by_id product_id (new_ObjectId env2))
                            (product_coll st1) = false) by now rewrite E1.
  pose proof (post_api_products_created env2 b st1 _ s1 Hdb1 Hb Hres Hfresh1)
    as Hpost.
  assert (E2 : st2 = with_product st1 p).
  { unfold st2. now rewrite Hpost. }
  assert (Hdb2 : db_error st2 = None) by now rewrite E2.
  assert (Hfind : List.find (by_id product_id (new_ObjectId env2))
                            (product_coll st2) = Some p).
  { rewrite E2. cbn. apply find_app_new; [exact Hfresh1|].
    apply (by_id_refl product_id p). }
  assert (Hser : List.find (by_id series_id (series_id s1)) (series_coll st2)
                 = Some s1).
  { rewrite E2, E1. cbn. apply find_app_new; [exact Hid|].
    apply (by_id_refl series_id s1). }
  assert (Hread : read = (Responded (res_json (product_json (p, Some s1))), st2,
                          [Query MProduct; Query MSeries])).
  { unfold read.
    rewrite (get_api_products_id_found _ (new_ObjectId env2) (series_id s1) p st2
               Hdb2 (castObjectId_toHexString _) Hfind eq_refl).
    now rewrite Hser. }
  repeat apply conj.
  - exact E1.
  - now rewrite Hpost.
  - exact E2.
  - now rewrite Hread.
  - unfold series_name_of.
    now rewrite (product_json_series p (Some s1) (series_id s1) eq_refl).
  - now rewrite Hread.
  - intros id i Hc Hnone.
    apply (get_api_products_id_missing id i st2 Hdb2 Hc Hnone).
  - intros st' id i Hdb' Hc Hnone.
    apply (get_api_products_id_missing id i st' Hdb' Hc Hnone).
Qed.

(** ** [GET /api/products/series/:seriesId] *)

Lemma resolve_unset (ss : list SeriesDoc) (ps : list ProductDoc) :
  existsb Product.has_series ps = false ->
  map (Product.resolve []) ps = map (Product.resolve ss) ps.
Proof.
  induction ps as [|p r IH]; cbn; [reflexivity|].
  intros H. apply orb_false_iff in H as [Hp Hr]. rewrite (IH Hr).
  f_equal. unfold Product.resolve, Product.has_series in *.
  now destruct (series p).
Qed.

Lemma populate_ok (ps : list ProductDoc) (st : Store) :
  db_error st = None ->
  Product.populate ps st =
    (Ok (map (Product.resolve (series_coll st)) ps), st,
     if existsb Product.has_series ps then [Query MSeries] else []).
Proof.
  intros Hdb. unfold Product.populate.
  destruct (existsb Product.has_series ps) eqn:E.
  - unfold_await. now rewrite Hdb.
  - unfold ret. now rewrite (resolve_unset (series_coll st) ps E).
Qed.

Lemma in_referencing (i : ObjectId) (st : Store) (p : ProductDoc) :
  In p (referencing i st) <-> In p (product_coll st) /\ series p = Some i.
Proof.
  no_libs. unfold referencing. rewrite filter_In. unfold Product.in_series.
  destruct (series p) as [j|]; [|intuition congruence].
  rewrite oid_eqb_eq. intuition congruence.
Qed.

Lemma resolve_referencing (i : ObjectId) (st : Store) (s : SeriesDoc) :
  List.find (by_id series_id i) (series_coll st) = Some s ->
  map (Product.resolve (series_coll st)) (referencing i st) =
  map (fun p => (p, Some s)) (referencing i st).
Proof.
  intros Hs. apply map_ext_in. intros p Hp.
  apply in_referencing in Hp as [_ Hp]. unfold Product.resolve.
  now rewrite Hp, Hs.
Qed.

(** C6 (amended).  When the store answers and the route parameter is the
    hexadecimal form of an ObjectId [i]: if [i] is the id of a Series [s],
    the answer is 200 with one record for each product whose [series] is
    [i] and no other record, each with [series.name] equal to the name of
    [s]; if [i] is the id of no Series, the answer is 404 and the one
    operation sent to the store is the Series lookup. *)
Theorem get_api_products_series_listing
        (seriesId : string) (i : ObjectId) (st : Store) :
  db_error st = None -> castObjectId seriesId = Some i ->
  (forall s,
     List.find (by_id series_id i) (series_coll st) = Some s ->
     let records := map (fun p => product_json (p, Some s)) (referencing i st) in
     outcome (get_api_products_series seriesId st) =
       Responded (mkResponse 200 (Json (JArr records))) /\
     store_after (get_api_products_series seriesId st) = st /\
     length records = length (referencing i st) /\
     (forall p, In p (referencing i st) <->
                In p (product_coll st) /\ series p = Some i) /\
     (forall j, In j records ->
                series_name_of j = Some (JStr (series_name s)))) /\
  (List.find (by_id series_id i) (series_coll st) = None ->
   get_api_products_series seriesId st =
     (Responded (mkResponse 404 (Text "Series not found")), st,
      [Query MSeries])).
Proof.
  intros Hdb Hc. split.
  - intros s Hs records.
    assert (H : get_api_products_series seriesId st =
                (Responded (res_json (JArr records)), st,
                 Query MSeries :: Query MProduct ::
                 (if existsb Product.has_series (referencing i st)
                  then [Query MSeries] else []))).
    { unfold get_api_products_series.
      unfold async, try_catch at 1, bind at 1.
      rewrite (Series_findById_cast _ i st Hdb Hc), Hs.
      unfold Product.find_by_series_populate. unfold_await.
      rewrite Hc. cbn. rewrite Hdb. cbn.
      fold (referencing i st). rewrite (populate_ok _ st Hdb).
      rewrite (resolve_referencing i st s Hs).
      unfold records. rewrite map_map.
      now rewrite app_nil_r. }
    repeat apply conj.
    + now rewrite H.
    + now rewrite H.
    + apply length_map.
    + intros p. apply in_referencing.
    + intros j Hj. apply in_map_iff in Hj as (p & <- & Hp).
      apply in_referencing in Hp as [_ Hp]. unfold series_name_of.
      now rewrite (product_json_series p (Some s) i Hp).
  - intros Hn. unfold get_api_products_series.
    unfold async, try_catch at 1, bind at 1.
    now rewrite (Series_findById_cast _ i st Hdb Hc), Hn.
Qed.

(** ** [GET /api/products] *)

Lemma get_api_products_ok (st : Store) :
  db_error st = None ->
  get_api_products st =
    (Responded
       (res_json (JArr (map product_json
                            (map (Product.resolve (series_coll st))
                                 (product_coll st))))),
     st,
     Query MProduct ::
       (if existsb Product.has_series (product_coll st)
        then [Query MSeries] else [])).
Proof.
  intros Hdb. unfold get_api_products, Product.find_populate. unfold_await.
  rewrite Hdb. cbn. rewrite (populate_ok _ st Hdb). cbn.
  now rewrite app_nil_r.
Qed.

(** Every product of the store has its record in the public listing, with
    the purchase price and the source the document has. *)
Lemma get_api_products_record (st : Store) (p : ProductDoc) :
  db_error st = None -> In p (product_coll st) ->
  exists records t j,
    get_api_products st = (Responded (res_json (JArr records)), st, t) /\
    In j records /\
    json_field "purchasePrice" j = option_map JNum (purchasePrice p) /\
    json_field "source" j = option_map JStr (source p).
Proof.
  intros Hdb Hp. rewrite (get_api_products_ok st Hdb).
  eexists _, _, (product_json (Product.resolve (series_coll st) p)).
  split; [reflexivity|]. split.
  - apply in_map, in_map, Hp.
  - unfold Product.resolve.
    now rewrite product_json_purchasePrice, product_json_source.
Qed.

(** ** [POST /api/register] and [POST /api/login] *)

Lemma username_absent (u : string) (l : list UserDoc) :
  existsb (fun d => String.eqb (username d) u) l = false ->
  ~ In u (map username l).
Proof.
  no_libs. induction l as [|a r IH]; cbn; [tauto|].
  intros H. apply orb_false_iff in H as [Ha Hr].
  apply String.eqb_neq in Ha. intros [E|E]; [congruence|now apply IH].
Qed.

Lemma NoDup_snoc {A} (l : list A) (x : A) :
  NoDup l -> ~ In x l -> NoDup (l ++ [x]).
Proof.
  no_libs. intros Hl Hx. induction Hl as [|a r Ha Hr IH]; cbn.
  - constructor; [tauto|constructor].
  - constructor.
    + rewrite in_app_iff. cbn. intros [H|[H|[]]]; [tauto|].
      apply Hx. now left.
    + apply IH. intros H. apply Hx. now right.
Qed.

Lemma post_api_register_store (env : Env) (u : option string)
      (pw : option json) (st : Store) :
  store_after (post_api_register env u pw st) = st \/
  exists n h,
    u = Some n /\
    existsb (fun d => String.eqb (username d) n) (user_coll st) = false /\
    store_after (post_api_register env u pw st) =
      with_user st (mkUser (new_ObjectId env) n h).
Proof.
  unfold post_api_register, bcrypt_hash, User.save, store_after.
  unfold_await.
  destruct pw as [[| | |p| |]|]; cbn; auto.
  destruct u as [[|c r]|]; cbn; auto.
  destruct (bcrypt_digest p 10 (salt_entropy env)) as [|c' r'] eqn:Hd; cbn; auto.
  destruct (db_error st); cbn; auto.
  destruct (existsb (by_id _ _) _); cbn; auto.
  destruct (existsb (fun d => _) _) eqn:Hname; cbn; auto.
  right. exists (String c r), (String c' r'). auto.
Qed.

Lemma register_keeps_unique (env : Env) (u : option string)
      (pw : option json) (st : Store) :
  unique_usernames st ->
  unique_usernames (store_after (post_api_register env u pw st)).
Proof.
  intros Hst.
  destruct (post_api_register_store env u pw st) as [->|(n & h & _ & Hn & ->)];
    [exact Hst|].
  unfold unique_usernames, with_user. cbn. rewrite map_app. cbn.
  apply NoDup_snoc; [exact Hst|]. now apply username_absent.
Qed.

Section Bcrypt.

(** A bcrypt hash is never the empty string. *)
Hypothesis bcrypt_digest_nonempty :
  forall p rounds entropy, bcrypt_digest p rounds entropy <> "".

Lemma post_api_register_created (env : Env) (u p : string) (st : Store) :
  db_error st = None -> u <> "" ->
  existsb (by_id user_id (new_ObjectId env)) (user_coll st) = false ->
  existsb (fun d => String.eqb (username d) u) (user_coll st) = false ->
  post_api_register env (Some u) (Some (JStr p)) st =
    (Responded (send_status 201 "User registered"),
     with_user st (mkUser (new_ObjectId env) u
                          (bcrypt_digest p 10 (salt_entropy env))),
     [Insert MUser]).
Proof using bcrypt_digest_nonempty.
  intros Hdb Hu Hid Hname.
  unfold post_api_register, bcrypt_hash, User.save. unfold_await.
  destruct u as [|c r]; [congruence|]. cbn.
  pose proof (bcrypt_digest_nonempty p 10 (salt_entropy env)) as Hd.
  destruct (bcrypt_digest p 10 (salt_entropy env)) as [|c' r'];
    [congruence|]. cbn.
  rewrite Hdb. cbn. rewrite Hid. cbn in *. rewrite Hname. reflexivity.
Qed.

Lemma post_api_register_conflict (env : Env) (u p : string) (st : Store) :
  db_error st = None -> u <> "" ->
  existsb (fun d => String.eqb (username d) u) (user_coll st) = true ->
  exists index,
    post_api_register env (Some u) (Some (JStr p)) st =
      (Responded (send_status 500 (message (DuplicateKey MUser index))),
       st, [Insert MUser]).
Proof using bcrypt_digest_nonempty.
  intros Hdb Hu Hname.
  unfold post_api_register, bcrypt_hash, User.save. unfold_await.
  destruct u as [|c r]; [congruence|]. cbn.
  pose proof (bcrypt_digest_nonempty p 10 (salt_entropy env)) as Hd.
  destruct (bcrypt_digest p 10 (salt_entropy env)) as [|c' r'];
    [congruence|]. cbn.
  rewrite Hdb. cbn.
  destruct (existsb (by_id _ _) _); cbn; [now exists "_id_"|].
  cbn in Hname. rewrite Hname. now exists "username_1".
Qed.

(** C5 (amended).  For every non-empty username [u] that the credential
    store, which answers, does not contain (the driver generating an
    unused id): the first registration of [u] is answered 201 and adds
    one user whose stored password is the salted digest of the password
    at cost 10; a second registration of [u] is refused by a unique
    index, answered 500 with the duplicate-key message, and leaves the
    store as it was.  No registration, whatever the request, breaks the
    uniqueness of usernames. *)
Theorem register_twice (env1 env2 : Env) (u p p' : string) (st : Store) :
  db_error st = None -> u <> "" ->
  List.find (fun d => String.eqb (username d) u) (user_coll st) = None ->
  existsb (by_id user_id (new_ObjectId env1)) (user_coll st) = false ->
  let first := post_api_register env1 (Some u) (Some (JStr p)) st in
  let st1 := store_after first in
  let second := post_api_register env2 (Some u) (Some (JStr p')) st1 in
  outcome first = Responded (mkResponse 201 (Text "User registered")) /\
  st1 = with_user st (mkUser (new_ObjectId env1) u
                             (bcrypt_digest p 10 (salt_entropy env1))) /\
  (exists index,
     outcome second =
       Responded (mkResponse 500 (Text (message (DuplicateKey MUser index))))) /\
  store_after second = st1 /\
  (forall env req_username req_password st0,
     unique_usernames st0 ->
     unique_usernames
       (store_after (post_api_register env req_username req_password st0))).
Proof using bcrypt_digest_nonempty.
  intros Hdb Hu Hnew Hid first st1 second.
  apply find_none_existsb in Hnew.
  pose proof (post_api_register_created env1 u p st Hdb Hu Hid Hnew) as H1.
  assert (E1 : st1 = with_user st (mkUser (new_ObjectId env1) u
                                     (bcrypt_digest p 10 (salt_entropy env1)))).
  { unfold st1, first. now rewrite H1. }
  assert (Hdb1 : db_error st1 = None) by now rewrite E1.
  assert (Hin : existsb (fun d => String.eqb (username d) u) (user_coll st1)
                = true).
  { rewrite E1. cbn. rewrite existsb_app. cbn.
    rewrite String.eqb_refl. now rewrite orb_true_r. }
  destruct (post_api_register_conflict env2 u p' st1 Hdb1 Hu Hin)
    as (index & H2).
  repeat apply conj.
  - unfold first. now rewrite H1.
  - exact E1.
  - exists index. unfold second. now rewrite H2.
  - unfold second. now rewrite H2.
  - intros env req_username req_password st0.
    apply register_keeps_unique.
Qed.

End Bcrypt.

Lemma post_api_register_201 (env : Env) (u : option string)
      (pw : option json) (st : Store) (body : Body) :
  outcome (post_api_register env u pw st) = Responded (mkResponse 201 body) ->
  exists n p,
    u = Some n /\ pw = Some (JStr p) /\ db_error st = None /\
    existsb (fun d => String.eqb (username d) n) (user_coll st) = false /\
    store_after (post_api_register env u pw st) =
      with_user st (mkUser (new_ObjectId env) n
                           (bcrypt_digest p 10 (salt_entropy env))).
Proof.
  unfold post_api_register, bcrypt_hash, User.save, store_after, outcome.
  unfold_await.
  destruct pw as [[| | |p| |]|]; cbn; try discriminate.
  destruct u as [[|c r]|]; cbn; try discriminate.
  destruct (bcrypt_digest p 10 (salt_entropy env)) as [|c' r'] eqn:Hd; cbn;
    try discriminate.
  destruct (db_error st); cbn; try discriminate.
  destruct (existsb (by_id _ _) _); cbn; try discriminate.
  destruct (existsb (fun d => _) _) eqn:Hname; cbn; try discriminate.
  intros _. exists (String c r), p. rewrite Hd. repeat split; auto.
Qed.

Lemma User_findOne_ok (u : string) (st : Store) :
  db_error st = None ->
  User.findOne u st =
    (Ok (List.find (fun d => String.eqb (username d) u) (user_coll st)), st,
     [Query MUser]).
Proof. intros Hdb. unfold User.findOne. unfold_await. now rewrite Hdb. Qed.

Section Login.

(** [bcrypt.compare] accepts a password against its own hash, and
    [jwt.verify] decodes, until it expires, the payload [jwt.sign]
    signed under the same secret. *)
Hypothesis bcrypt_matches_digest :
  forall p rounds entropy,
    bcrypt_matches p (bcrypt_digest p rounds entropy) = true.
Hypothesis jws_verify_sign :
  forall c key t, (t < exp c)%Z -> jws_verify (jws_sign c key) key t = Some c.

(** C4.  On a store that answers: a user registered as [u] with the
    password [p] logs in with 200 and a token that is the signature,
    under the process secret, of the claims made of the user's id, the
    username [u], the time of issue and an expiry 3600 seconds later,
    and that [jwt.verify] decodes to these claims until then; an unknown
    username and a password that does not verify are both answered 400,
    with the messages "User not found" and "Invalid password"; and a
    user is registered in this sense as soon as [POST /api/register]
    has answered 201. *)
Theorem login_outcomes (env : Env) (u : string) (st : Store) :
  db_error st = None ->
  (forall p doc,
     registered st u p doc ->
     let claims := mkClaims (toHexString (user_id doc)) u (now env)
                            (now env + 3600) in
     let token := jws_sign claims JWT_SECRET in
     post_api_login env u (Some (JStr p)) st =
       (Responded (mkResponse 200 (Json (JObj [("token", JStr token)]))),
        st, [Query MUser]) /\
     (forall t, (t < now env + 3600)%Z ->
                jws_verify token JWT_SECRET t = Some claims)) /\
  (List.find (fun d => String.eqb (username d) u) (user_coll st) = None ->
   forall req_password,
     post_api_login env u req_password st =
       (Responded (mkResponse 400 (Text "User not found")), st,
        [Query MUser])) /\
  (forall doc p',
     List.find (fun d => String.eqb (username d) u) (user_coll st) = Some doc ->
     bcrypt_matches p' (password doc) = false ->
     post_api_login env u (Some (JStr p')) st =
       (Responded (mkResponse 400 (Text "Invalid password")), st,
        [Query MUser])) /\
  (forall env0 p st0,
     outcome (post_api_register env0 (Some u) (Some (JStr p)) st0) =
       Responded (mkResponse 201 (Text "User registered")) ->
     registered (store_after (post_api_register env0 (Some u) (Some (JStr p)) st0))
                u p
                (mkUser (new_ObjectId env0) u
                        (bcrypt_digest p 10 (salt_entropy env0)))).
Proof using bcrypt_matches_digest jws_verify_sign.
  intros Hdb. repeat apply conj.
  - intros p doc [Hfind [entropy Hpw]] claims token.
    assert (Hu : username doc = u).
    { apply find_some in Hfind as [_ H]. now apply String.eqb_eq. }
    split.
    + unfold post_api_login. unfold async, try_catch at 1, bind at 1.
      rewrite (User_findOne_ok u st Hdb), Hfind.
      unfold bcrypt_compare, jwt_sign. unfold_await.
      rewrite Hpw, bcrypt_matches_digest, Hu. reflexivity.
    + intros t Ht. apply jws_verify_sign. exact Ht.
  - intros Hnone pw. unfold post_api_login.
    unfold async, try_catch at 1, bind at 1.
    now rewrite (User_findOne_ok u st Hdb), Hnone.
  - intros doc p' Hfind Hbad. unfold post_api_login.
    unfold async, try_catch at 1, bind at 1.
    rewrite (User_findOne_ok u st Hdb), Hfind.
    unfold bcrypt_compare. unfold_await. now rewrite Hbad.
  - intros env0 p st0 H201.
    destruct (post_api_register_201 env0 _ _ st0 _ H201)
      as (n & q & [= <-] & [= <-] & _ & Hname & ->).
    split; [|now exists (salt_entropy env0)].
    cbn. apply find_app_new; [exact Hname|]. cbn. apply String.eqb_refl.
Qed.

End Login.

(** ** The API as a whole *)

Ltac unfold_routes :=
  unfold serve, dispatch, post_api_register, post_api_login, post_api_series,
    get_api_products, get_api_products_full, guarded, products_full_handler,
    post_api_products, get_api_series, get_api_series_again,
    get_api_series_id, get_api_products_id, get_api_products_series,
    verifyToken, bcrypt_hash, bcrypt_compare, jwt_sign,
    Series.find, Series.findById, Series.save,
    Product.find_populate, Product.find_by_series_populate,
    Product.findById_populate, Product.populate, Product.save,
    User.findOne, User.save, store_after, outcome, trace;
  unfold_await.

(** Case analysis on the innermost scrutinee, until none is left. *)
Ltac case_matches :=
  repeat match goal with
         | |- context [match ?x with _ => _ end] =>
             lazymatch x with
             | context [match _ with _ => _ end] => fail
             | _ => destruct x eqn:?; cbn
             end
         end.

Lemma find_In {D} (f : D -> bool) (l : list D) (d : D) :
  List.find f l = Some d -> In d l.
Proof. intros H. now apply find_some in H. Qed.

Lemma post_api_register_appended (env : Env) (u : option string)
      (pw : option json) (st : Store) :
  appended env st (store_after (post_api_register env u pw st)).
Proof.
  unfold_routes. case_matches; try apply appended_nothing.
  apply appended_user; congruence.
Qed.

Lemma post_api_series_appended (env : Env) (n : option string) (st : Store) :
  appended env st (store_after (post_api_series env n st)).
Proof.
  unfold_routes. case_matches; try apply appended_nothing.
  apply appended_series; congruence.
Qed.

Lemma post_api_products_appended (env : Env) (b : ProductBody) (st : Store) :
  appended env st (store_after (post_api_products env b st)).
Proof.
  unfold_routes. case_matches; try apply appended_nothing.
  match goal with
  | H : List.find _ _ = Some ?s |- _ =>
      apply (appended_product env st b s); [exact (find_In _ _ _ H)|assumption]
  end.
Qed.

Lemma serve_appended (env : Env) (c : Call) (st : Store) :
  appended env st (store_after (serve env c st)).
Proof.
  destruct c;
    try apply post_api_register_appended;
    try apply post_api_series_appended;
    try apply post_api_products_appended;
    unfold_routes; case_matches; apply appended_nothing.
Qed.

(** X1. Create-only store.  Whatever the request, each collection after it
    is the collection before it with at most one document appended, at most
    one document is appended in all, and the state of the connection is the
    same: no route updates or deletes. *)
Theorem serve_only_appends (env : Env) (c : Call) (st : Store) :
  let st' := store_after (serve env c st) in
  exists ss ps us,
    series_coll st' = (series_coll st ++ ss)%list /\
    product_coll st' = (product_coll st ++ ps)%list /\
    user_coll st' = (user_coll st ++ us)%list /\
    length ss + length ps + length us <= 1 /\
    db_error st' = db_error st.
Proof.
  cbv zeta. destruct (serve_appended env c st).
  - exists [], [], []. rewrite !app_nil_r. repeat split. cbn. auto.
  - eexists [_], [], []. cbn. rewrite !app_nil_r. repeat split. auto.
  - eexists [], [_], []. cbn. rewrite !app_nil_r. repeat split. auto.
  - eexists [], [], [_]. cbn. rewrite !app_nil_r. repeat split. auto.
Qed.

(** X2. Reads do not write.  A request to any route other than the three
    that call [save] (the [GET] routes and the login) leaves the store
    exactly as it was and sends it no insert. *)
Theorem reads_leave_store (env : Env) (c : Call) (st : Store) :
  saves c = false ->
  store_after (serve env c st) = st /\
  forallb (fun op => negb (is_insert op)) (trace (serve env c st)) = true.
Proof.
  destruct c; cbn [saves]; try discriminate; intros _;
    unfold_routes; case_matches; split; reflexivity.
Qed.

(** ** Invariants *)

Lemma id_absent {D} (id_of : D -> ObjectId) (i : ObjectId) (l : list D) :
  existsb (by_id id_of i) l = false -> ~ In i (map id_of l).
Proof.
  induction l as [|a r IH]; cbn [existsb map In]; [now intros _ []|].
  intros H. apply orb_false_iff in H as [Ha Hr].
  intros [E|E]; [|now apply IH].
  unfold by_id in Ha. rewrite E in Ha.
  assert (oid_eqb i i = true) by now apply oid_eqb_eq. congruence.
Qed.

Lemma series_name_absent (n : string) (l : list SeriesDoc) :
  existsb (fun d => String.eqb (series_name d) n) l = false ->
  ~ In n (map series_name l).
Proof.
  induction l as [|a r IH]; cbn; [now intros _ []|].
  intros H. apply orb_false_iff in H as [Ha Hr].
  apply String.eqb_neq in Ha. intros [E|E]; [congruence|now apply IH].
Qed.

Lemma appended_ids_unique (env : Env) (st st' : Store) :
  appended env st st' -> ids_unique st -> ids_unique st'.
Proof.
  intros Happ (Hs & Hp & Hu).
  destruct Happ as [|n Hn Hid Hname|b s Hin Hid|n h Hn Hh Hid Hname];
    unfold ids_unique; cbn; rewrite ?map_app; cbn; repeat split; auto;
    apply NoDup_snoc; auto; now apply id_absent.
Qed.

Lemma appended_series_names_unique (env : Env) (st st' : Store) :
  appended env st st' -> unique_series_names st -> unique_series_names st'.
Proof.
  intros Happ Hnd.
  destruct Happ as [|n Hn Hid Hname|b s Hin Hid|n h Hn Hh Hid Hname];
    unfold unique_series_names; cbn; rewrite ?map_app; cbn; auto.
  apply NoDup_snoc; auto. now apply series_name_absent.
Qed.

Lemma appended_usernames_unique (env : Env) (st st' : Store) :
  appended env st st' -> unique_usernames st -> unique_usernames st'.
Proof.
  intros Happ Hnd.
  destruct Happ as [|n Hn Hid Hname|b s Hin Hid|n h Hn Hh Hid Hname];
    unfold unique_usernames; cbn; rewrite ?map_app; cbn; auto.
  apply NoDup_snoc; auto. now apply username_absent.
Qed.

Lemma appended_references (env : Env) (st st' : Store) :
  appended env st st' -> references_resolve st -> references_resolve st'.
Proof.
  intros Happ Href.
  destruct Happ as [|n|b s Hs|n h]; unfold references_resolve; cbn; auto.
  - intros p Hp. destruct (Href p Hp) as (s & Hin & Hser).
    exists s. split; [|exact Hser]. apply in_or_app. now left.
  - intros p Hp. apply in_app_or in Hp as [Hp|[<-|[]]].
    + exact (Href p Hp).
    + now exists s.
Qed.

Lemma appended_required_paths (env : Env) (st st' : Store) :
  appended env st st' -> required_paths_set st -> required_paths_set st'.
Proof.
  intros Happ [Hs Hu].
  destruct Happ as [|n Hn|b s|n h Hn Hh];
    unfold required_paths_set; cbn; split; auto.
  - intros s Hin. apply in_app_or in Hin as [Hin|[<-|[]]]; auto.
  - intros u Hin. apply in_app_or in Hin as [Hin|[<-|[]]]; auto.
Qed.

(** X3. No request makes two documents of a collection share an [_id]. *)
Theorem serve_keeps_ids_unique (env : Env) (c : Call) (st : Store) :
  ids_unique st -> ids_unique (store_after (serve env c st)).
Proof. apply appended_ids_unique with env, serve_appended. Qed.

(** X4. No request makes two Series share a name, nor two users a
    username. *)
Theorem serve_keeps_names_unique (env : Env) (c : Call) (st : Store) :
  (unique_series_names st ->
   unique_series_names (store_after (serve env c st))) /\
  (unique_usernames st ->
   unique_usernames (store_after (serve env c st))).
Proof.
  split.
  - apply appended_series_names_unique with env, serve_appended.
  - apply appended_usernames_unique with env, serve_appended.
Qed.

(** X5. Referential integrity.  If every product of the store refers to a
    Series of the store, this is still so after any request: a product is
    only ever saved with the [_id] of a Series that was just looked up, and
    no Series is removed. *)
Theorem serve_keeps_references (env : Env) (c : Call) (st : Store) :
  references_resolve st -> references_resolve (store_after (serve env c st)).
Proof. apply appended_references with env, serve_appended. Qed.

(** X6. Validated paths stay set.  If the names of the stored Series and
    the usernames and password hashes of the stored users are non-empty,
    they still are after any request. *)
Theorem serve_keeps_required_paths (env : Env) (c : Call) (st : Store) :
  required_paths_set st -> required_paths_set (store_after (serve env c st)).
Proof. apply appended_required_paths with env, serve_appended. Qed.

(** X19. A database filled through the API is consistent.  Every store
    reached from an empty database by requests to the API, the connection
    going down and up at will in between, has distinct ids in each
    collection, distinct Series names, distinct usernames, products that
    all refer to a Series of the store, and non-empty required paths. *)
Theorem reachable_store_consistent (st : Store) :
  reachable st ->
  ids_unique st /\ unique_series_names st /\ unique_usernames st /\
  references_resolve st /\ required_paths_set st.
Proof.
  induction 1 as [e|env c st Hr (Hi & Hs & Hu & Href & Hreq)
                  |st e Hr (Hi & Hs & Hu & Href & Hreq)].
  - unfold ids_unique, unique_series_names, unique_usernames,
      references_resolve, required_paths_set. cbn.
    repeat apply conj; try apply NoDup_nil; intros ? [].
  - pose proof (serve_appended env c st) as Happ.
    split; [|split; [|split; [|split]]].
    + now apply (appended_ids_unique env st).
    + now apply (appended_series_names_unique env st).
    + now apply (appended_usernames_unique env st).
    + now apply (appended_references env st).
    + now apply (appended_required_paths env st).
  - split; [|split; [|split; [|split]]]; assumption.
Qed.

Lemma find_by_id_In {D} (id_of : D -> ObjectId) (l : list D) (d : D) :
  In d l ->
  exists d', List.find (by_id id_of (id_of d)) l = Some d' /\ In d' l /\
             id_of d' = id_of d.
Proof.
  intros Hin.
  destruct (List.find (by_id id_of (id_of d)) l) as [d'|] eqn:Hf.
  - exists d'. apply find_some in Hf as [Hin' Hid].
    repeat split; auto. now apply oid_eqb_eq.
  - exfalso. apply (find_none _ _ Hf d) in Hin.
    now rewrite by_id_refl in Hin.
Qed.

(** X7. No dangling series in the listing.  On a store that answers and in
    which every product refers to a Series of the store, [GET /api/products]
    answers 200 with one record per product, in the order of the
    collection, and the [series.name] of every record is the name of a
    Series of the store (never [null], never missing). *)
Theorem listing_resolves_series (st : Store) :
  db_error st = None -> references_resolve st ->
  outcome (get_api_products st) =
    Responded (mkResponse 200
      (Json (JArr (map (product_record st) (product_coll st))))) /\
  (forall j, In j (map (product_record st) (product_coll st)) ->
             exists s, In s (series_coll st) /\
                       series_name_of j = Some (JStr (series_name s))).
Proof.
  intros Hdb Href. split.
  - rewrite (get_api_products_ok st Hdb). cbn. now rewrite map_map.
  - intros j Hj. apply in_map_iff in Hj as (p & <- & Hp).
    destruct (Href p Hp) as (s & Hs & Hser).
    destruct (find_by_id_In series_id _ s Hs) as (s' & Hf & Hs' & _).
    exists s'. split; [exact Hs'|].
    unfold product_record, Product.resolve, series_name_of.
    rewrite Hser, Hf.
    now rewrite (product_json_series p (Some s') (series_id s) Hser).
Qed.

(** ** Series: creation and lookup *)

Lemma post_api_series_conflict (env : Env) (n : string) (st : Store) :
  db_error st = None -> n <> "" ->
  existsb (by_id series_id (new_ObjectId env)) (series_coll st) = true \/
  existsb (fun d => String.eqb (series_name d) n) (series_coll st) = true ->
  exists index,
    post_api_series env (Some n) st =
      (Responded (send_status 500 (message (DuplicateKey MSeries index))), st,
       [Insert MSeries]).
Proof.
  intros Hdb Hn Hdup. unfold post_api_series, Series.save. unfold_await.
  destruct n as [|c r]; [congruence|]. cbn. rewrite Hdb. cbn.
  destruct (existsb (by_id _ _) _); cbn; [now exists "_id_"|].
  destruct Hdup as [Hdup|Hdup]; [discriminate|].
  cbn in Hdup. rewrite Hdup. now exists "name_1".
Qed.

(** X8. The outcomes of [POST /api/series].  A missing or empty name is
    refused by validation with a 500 before anything is sent to the store;
    with a name, a store that is down gives a 500 carrying its message; a
    name or a generated id that is already taken gives a 500 carrying the
    duplicate-key message; otherwise the answer is 201 and the store gains
    exactly the new Series.  In the three failing cases the store is left
    as it was. *)
Theorem post_api_series_outcomes (env : Env) (st : Store) :
  (forall name,
     name = None \/ name = Some "" ->
     post_api_series env name st =
       (Responded (mkResponse 500
          (Text "Series validation failed: name: Path `name` is required.")),
        st, [])) /\
  (forall n msg,
     n <> "" -> db_error st = Some msg ->
     post_api_series env (Some n) st =
       (Responded (mkResponse 500 (Text msg)), st, [Insert MSeries])) /\
  (forall n,
     n <> "" -> db_error st = None ->
     existsb (by_id series_id (new_ObjectId env)) (series_coll st) = true \/
     existsb (fun d => String.eqb (series_name d) n) (series_coll st) = true ->
     exists index,
       post_api_series env (Some n) st =
         (Responded (mkResponse 500 (Text (message (DuplicateKey MSeries index)))),
          st, [Insert MSeries])) /\
  (forall n,
     n <> "" -> db_error st = None ->
     existsb (by_id series_id (new_ObjectId env)) (series_coll st) = false ->
     existsb (fun d => String.eqb (series_name d) n) (series_coll st) = false ->
     post_api_series env (Some n) st =
       (Responded (mkResponse 201 (Text "Series created successfully")),
        with_series st (mkSeries (new_ObjectId env) n), [Insert MSeries])).
Proof.
  repeat apply conj.
  - intros name [->| ->]; reflexivity.
  - intros n msg Hn Hdb. unfold post_api_series, Series.save. unfold_await.
    destruct n as [|c r]; [congruence|]. cbn. now rewrite Hdb.
  - intros n Hn Hdb Hdup. now apply post_api_series_conflict.
  - intros n Hn Hdb Hid Hname. now apply post_api_series_created.
Qed.

Lemma get_api_series_id_found (id : string) (i : ObjectId) (s : SeriesDoc)
      (st : Store) :
  db_error st = None -> castObjectId id = Some i ->
  List.find (by_id series_id i) (series_coll st) = Some s ->
  get_api_series_id id st =
    (Responded (res_json (JObj [("_id", JStr (toHexString (series_id s)));
                                ("name", JStr (series_name s))])),
     st, [Query MSeries]).
Proof.
  intros Hdb Hc Hf. unfold get_api_series_id.
  unfold async, try_catch at 1, bind at 1.
  now rewrite (Series_findById_cast id i st Hdb Hc), Hf.
Qed.

(** X9. Create, then read.  When [POST /api/series] creates a Series (the
    store answers, the name is non-empty and new, the generated id unused),
    [GET /api/series/:id] with the hexadecimal form of the new id answers
    200 with that id and the name, and [GET /api/series] lists the Series
    that were there, in the same order, followed by the new one. *)
Theorem series_created_then_read (env : Env) (n : string) (st : Store) :
  db_error st = None -> n <> "" ->
  existsb (by_id series_id (new_ObjectId env)) (series_coll st) = false ->
  existsb (fun d => String.eqb (series_name d) n) (series_coll st) = false ->
  let st1 := store_after (post_api_series env (Some n) st) in
  let h := toHexString (new_ObjectId env) in
  get_api_series_id h st1 =
    (Responded (mkResponse 200
       (Json (JObj [("_id", JStr h); ("name", JStr n)]))),
     st1, [Query MSeries]) /\
  forall records,
    outcome (get_api_series st) =
      Responded (mkResponse 200 (Json (JArr records))) ->
    outcome (get_api_series st1) =
      Responded (mkResponse 200
        (Json (JArr (records ++ [series_json (mkSeries (new_ObjectId env) n)])))).
Proof.
  intros Hdb Hn Hid Hname st1 h.
  assert (E1 : st1 = with_series st (mkSeries (new_ObjectId env) n)).
  { unfold st1. now rewrite (post_api_series_created env n st). }
  assert (Hdb1 : db_error st1 = None) by now rewrite E1.
  split.
  - rewrite (get_api_series_id_found h (new_ObjectId env)
               (mkSeries (new_ObjectId env) n) st1 Hdb1
               (castObjectId_toHexString _)); [reflexivity|].
    rewrite E1. cbn. apply find_app_new; [exact Hid|].
    apply (by_id_refl series_id (mkSeries (new_ObjectId env) n)).
  - intros records. rewrite (get_api_series_ok st Hdb),
      (get_api_series_ok st1 Hdb1). cbn. intros [= <-].
    rewrite E1. cbn. now rewrite map_app.
Qed.

Lemma find_unique {D} (id_of : D -> ObjectId) (l : list D) (d : D) :
  NoDup (map id_of l) -> In d l ->
  List.find (by_id id_of (id_of d)) l = Some d.
Proof.
  induction l as [|a r IH]; cbn [map In List.find]; [now intros _ []|].
  intros Hnd Hin. apply NoDup_cons_iff in Hnd as [Ha Hr].
  destruct (by_id id_of (id_of d) a) eqn:E.
  - destruct Hin as [->|Hin]; [reflexivity|].
    exfalso. apply Ha. apply oid_eqb_eq in E. rewrite E.
    now apply in_map.
  - destruct Hin as [->|Hin]; [now rewrite by_id_refl in E|].
    now apply IH.
Qed.

(** X10. What is listed can be read.  On a store that answers and whose
    Series have distinct ids, every record of the [GET /api/series] listing
    carries an [_id] and a [name], and [GET /api/series/:id] with that
    [_id] answers 200 with exactly these two fields. *)
Theorem listed_series_can_be_read (st : Store) :
  db_error st = None -> NoDup (map series_id (series_coll st)) ->
  exists records,
    outcome (get_api_series st) =
      Responded (mkResponse 200 (Json (JArr records))) /\
    length records = length (series_coll st) /\
    forall j, In j records ->
      exists h n,
        json_field "_id" j = Some (JStr h) /\
        json_field "name" j = Some (JStr n) /\
        get_api_series_id h st =
          (Responded (mkResponse 200
             (Json (JObj [("_id", JStr h); ("name", JStr n)]))),
           st, [Query MSeries]).
Proof.
  intros Hdb Hnd. exists (map series_json (series_coll st)).
  split; [now rewrite (get_api_series_ok st Hdb)|].
  split; [apply length_map|].
  intros j Hj. apply in_map_iff in Hj as (s & <- & Hs).
  exists (toHexString (series_id s)), (series_name s).
  repeat split.
  apply (get_api_series_id_found _ (series_id s) s st Hdb
           (castObjectId_toHexString _)).
  now apply find_unique.
Qed.

(** ** Products: listing, lookup and creation *)

Lemma get_api_products_id_record (id : string) (i : ObjectId) (p : ProductDoc)
      (st : Store) :
  db_error st = None -> castObjectId id = Some i ->
  List.find (by_id product_id i) (product_coll st) = Some p ->
  get_api_products_id id st =
    (Responded (res_json (product_record st p)), st,
     Query MProduct :: (if Product.has_series p then [Query MSeries] else [])).
Proof.
  intros Hdb Hc Hf. unfold get_api_products_id, Product.findById_populate.
  unfold_await. rewrite Hc. cbn. rewrite Hdb. cbn. rewrite Hf.
  rewrite (populate_ok [p] st Hdb). cbn. rewrite orb_false_r.
  now rewrite !app_nil_r.
Qed.

Lemma get_api_products_series_found (sid : string) (i : ObjectId)
      (s : SeriesDoc) (st : Store) :
  db_error st = None -> castObjectId sid = Some i ->
  List.find (by_id series_id i) (series_coll st) = Some s ->
  get_api_products_series sid st =
    (Responded (res_json (JArr (map (product_record st) (referencing i st)))),
     st,
     Query MSeries :: Query MProduct ::
       (if existsb Product.has_series (referencing i st)
        then [Query MSeries] else [])).
Proof.
  intros Hdb Hc Hs. unfold get_api_products_series.
  unfold async, try_catch at 1, bind at 1.
  rewrite (Series_findById_cast _ i st Hdb Hc), Hs.
  unfold Product.find_by_series_populate. unfold_await.
  rewrite Hc. cbn. rewrite Hdb. cbn.
  fold (referencing i st). rewrite (populate_ok _ st Hdb).
  rewrite map_map. now rewrite app_nil_r.
Qed.

Lemma get_api_products_series_missing (sid : string) (i : ObjectId) (st : Store) :
  db_error st = None -> castObjectId sid = Some i ->
  List.find (by_id series_id i) (series_coll st) = None ->
  get_api_products_series sid st =
    (Responded (send_status 404 "Series not found"), st, [Query MSeries]).
Proof.
  intros Hdb Hc Hs. unfold get_api_products_series.
  unfold async, try_catch at 1, bind at 1.
  now rewrite (Series_findById_cast _ i st Hdb Hc), Hs.
Qed.

(** X11. The detail agrees with the listing.  On a store that answers and
    whose products have distinct ids, [GET /api/products/:id] with the
    [_id] of any record of the [GET /api/products] listing answers 200 with
    that very record. *)
Theorem listed_product_can_be_read (st : Store) :
  db_error st = None -> NoDup (map product_id (product_coll st)) ->
  exists records,
    outcome (get_api_products st) =
      Responded (mkResponse 200 (Json (JArr records))) /\
    length records = length (product_coll st) /\
    forall j, In j records ->
      exists h,
        json_field "_id" j = Some (JStr h) /\
        outcome (get_api_products_id h st) =
          Responded (mkResponse 200 (Json j)) /\
        store_after (get_api_products_id h st) = st.
Proof.
  intros Hdb Hnd. exists (map (product_record st) (product_coll st)).
  split; [rewrite (get_api_products_ok st Hdb); cbn; now rewrite map_map|].
  split; [apply length_map|].
  intros j Hj. apply in_map_iff in Hj as (p & <- & Hp).
  exists (toHexString (product_id p)).
  rewrite (get_api_products_id_record _ (product_id p) p st Hdb
             (castObjectId_toHexString _) (find_unique product_id _ p Hnd Hp)).
  repeat split.
Qed.

(** X12. The listing of a series is the listing, filtered.  On a store
    that answers, for the id of a Series of the store,
    [GET /api/products/series/:seriesId] returns the records of
    [GET /api/products] for the products whose [series] is that id, each
    record unchanged and in the same order. *)
Theorem series_listing_is_filtered_listing
        (seriesId : string) (i : ObjectId) (s : SeriesDoc) (st : Store) :
  db_error st = None -> castObjectId seriesId = Some i ->
  List.find (by_id series_id i) (series_coll st) = Some s ->
  outcome (get_api_products st) =
    Responded (mkResponse 200
      (Json (JArr (map (product_record st) (product_coll st))))) /\
  outcome (get_api_products_series seriesId st) =
    Responded (mkResponse 200
      (Json (JArr (map (product_record st)
                       (filter (Product.in_series i) (product_coll st)))))).
Proof.
  intros Hdb Hc Hs. split.
  - rewrite (get_api_products_ok st Hdb). cbn. now rewrite map_map.
  - now rewrite (get_api_products_series_found seriesId i s st Hdb Hc Hs).
Qed.

Lemma referencing_with_product (i : ObjectId) (st : Store) (p : ProductDoc) :
  referencing i (with_product st p) =
  (referencing i st ++ if Product.in_series i p then [p] else [])%list.
Proof. unfold referencing. cbn. now rewrite filter_app. Qed.

Lemma product_record_with_product (st : Store) (q p : ProductDoc) :
  product_record (with_product st q) p = product_record st p.
Proof. reflexivity. Qed.

(** X13. A created product joins the listing of its series, and of no
    other.  When [POST /api/products] creates a product for the Series [s]
    (the store answers, the [seriesId] is the hexadecimal form of the id of
    [s], the generated id is unused), the listing of [s] afterwards is the
    listing before followed by the record of the new product, which carries
    the fields of the request and [series.name] equal to the name of [s];
    the listing of every other series id is answered as before. *)
Theorem created_product_joins_series
        (env : Env) (b : ProductBody) (sid : string) (i : ObjectId)
        (s : SeriesDoc) (st : Store) :
  db_error st = None ->
  seriesId b = Some sid -> castObjectId sid = Some i ->
  List.find (by_id series_id i) (series_coll st) = Some s ->
  existsb (by_id product_id (new_ObjectId env)) (product_coll st) = false ->
  let st1 := store_after (post_api_products env b st) in
  let p := new_product (new_ObjectId env) b i in
  st1 = with_product st p /\
  (forall records,
     outcome (get_api_products_series sid st) =
       Responded (mkResponse 200 (Json (JArr records))) ->
     outcome (get_api_products_series sid st1) =
       Responded (mkResponse 200
         (Json (JArr (records ++ [product_json (p, Some s)]))))) /\
  series_name_of (product_json (p, Some s)) = Some (JStr (series_name s)) /\
  (forall sid' i',
     castObjectId sid' = Some i' -> i' <> i ->
     outcome (get_api_products_series sid' st1) =
     outcome (get_api_products_series sid' st)).
Proof.
  intros Hdb Hb Hc Hs Hfresh st1 p.
  assert (Hi : series_id s = i).
  { apply find_some in Hs as [_ H]. now apply oid_eqb_eq. }
  assert (E1 : st1 = with_product st p).
  { unfold st1, p.
    rewrite (post_api_products_created env b st sid s Hdb Hb); auto.
    - now rewrite Hi.
    - unfold resolve_series. now rewrite Hc. }
  assert (Hdb1 : db_error st1 = None) by now rewrite E1.
  assert (Hs1 : forall j, List.find (by_id series_id j) (series_coll st1) =
                          List.find (by_id series_id j) (series_coll st))
    by now rewrite E1.
  repeat apply conj.
  - exact E1.
  - intros records.
    rewrite (get_api_products_series_found sid i s st Hdb Hc Hs).
    assert (Hs' := Hs). rewrite <- Hs1 in Hs'.
    rewrite (get_api_products_series_found sid i s st1 Hdb1 Hc Hs').
    cbn. intros [= <-]. rewrite E1, referencing_with_product.
    assert (Hin : Product.in_series i p = true).
    { unfold Product.in_series, p, new_product. cbn [series].
      now apply oid_eqb_eq. }
    rewrite Hin, map_app. cbn.
    unfold product_record at 2, Product.resolve. cbn.
    now rewrite Hs.
  - unfold series_name_of.
    now rewrite (product_json_series p (Some s) i eq_refl).
  - intros sid' i' Hc' Hne.
    assert (Hout : Product.in_series i' p = false).
    { unfold Product.in_series, p, new_product. cbn [series].
      destruct (oid_eqb i i') eqn:E; [|reflexivity].
      apply oid_eqb_eq in E. congruence. }
    destruct (List.find (by_id series_id i') (series_coll st)) as [s'|] eqn:Hf.
    + assert (Hf' := Hf). rewrite <- Hs1 in Hf'.
      rewrite (get_api_products_series_found sid' i' s' st Hdb Hc' Hf),
        (get_api_products_series_found sid' i' s' st1 Hdb1 Hc' Hf').
      cbn. rewrite E1, referencing_with_product, Hout, app_nil_r.
      reflexivity.
    + assert (Hf' := Hf). rewrite <- Hs1 in Hf'.
      now rewrite (get_api_products_series_missing sid' i' st Hdb Hc' Hf),
        (get_api_products_series_missing sid' i' st1 Hdb1 Hc' Hf').
Qed.

(** ** Login, tokens and the protected listing *)

(** X14. A login without a usable password.  On a store that answers,
    when the request's password is absent or is not a string: for a known
    username [bcrypt.compare] throws inside the [try] and the answer is a
    500 carrying bcrypt's message (where registration lets the same error
    escape); for an unknown username the password is never looked at and
    the answer is the 400 "User not found". *)
Theorem login_without_string_password
        (env : Env) (u : string) (pw : option json) (st : Store) :
  db_error st = None -> is_string pw = false ->
  match List.find (fun d => String.eqb (username d) u) (user_coll st) with
  | Some _ =>
      post_api_login env u pw st =
        (Responded (mkResponse 500
           (Text ("Illegal arguments: " ++ typeof pw ++ ", string"))),
         st, [Query MUser])
  | None =>
      post_api_login env u pw st =
        (Responded (mkResponse 400 (Text "User not found")), st, [Query MUser])
  end.
Proof.
  intros Hdb Hpw.
  destruct (List.find _ _) as [doc|] eqn:Hfind;
    unfold post_api_login; unfold async, try_catch at 1, bind at 1;
    rewrite (User_findOne_ok u st Hdb), Hfind; [|reflexivity].
  unfold bcrypt_compare. unfold_await.
  destruct pw as [[| | |p| |]|]; cbn in Hpw; try discriminate; reflexivity.
Qed.

(** X15. The public and the protected listing are one listing.  For every
    store, a request to [GET /api/products/full] whose token verifies gets
    exactly the response of [GET /api/products], with the same effect on
    the store; and on a store that answers, each record of that response
    shows the purchase price and the source of its product whenever the
    document has them. *)
Theorem listing_same_with_or_without_token
        (env : Env) (req : Request) (token : string) (decoded : Claims)
        (st : Store) :
  authorization req = Some token -> token <> "" ->
  jws_verify token JWT_SECRET (now env) = Some decoded ->
  get_api_products_full env req st = get_api_products st /\
  (db_error st = None ->
   outcome (get_api_products st) =
     Responded (mkResponse 200
       (Json (JArr (map (product_record st) (product_coll st))))) /\
   forall p,
     json_field "purchasePrice" (product_record st p) =
       option_map JNum (purchasePrice p) /\
     json_field "source" (product_record st p) = option_map JStr (source p)).
Proof.
  intros Ha Hne Hv. split.
  - unfold get_api_products_full, guarded.
    now rewrite (verifyToken_accepts env req token decoded Ha Hne Hv).
  - intros Hdb. split.
    + rewrite (get_api_products_ok st Hdb). cbn. now rewrite map_map.
    + intros p. unfold product_record, Product.resolve.
      now rewrite product_json_purchasePrice, product_json_source.
Qed.

(** X16. A store that is down.  When the connection is down, every
    request, on any of the ten routes, that gets as far as the store is
    answered 500 with the store's message, prefixed by "Error creating
    product: " on [POST /api/products]; the failing operation is the first
    one the route sends and the only one sent, and the store is left as it
    was.  A request that does not get as far as the store sends it
    nothing, whatever the state of the connection. *)
Theorem store_down_answers_500
        (env : Env) (c : Call) (msg : string) (st : Store) :
  db_error st = Some msg ->
  (reaches_store env c = true ->
   serve env c st =
     (Responded (mkResponse 500 (Text (error_prefix c ++ msg))), st,
      [first_operation c])) /\
  (forall st', reaches_store env c = false -> trace (serve env c st') = []).
Proof.
  intros Hdb. split.
  - destruct c; unfold reaches_store, well_formed; unfold_routes; cbn;
      case_matches; intros Hr; try discriminate;
      unfold send_status; congruence.
  - intros st'.
    destruct c; unfold reaches_store, well_formed; unfold_routes; cbn;
      case_matches; intros Hr; try discriminate; try reflexivity.
Qed.

(** X17. Registration is validated before the store is contacted.  With a
    string password, a registration whose username is absent or empty is
    answered 500 with the validation message, and nothing is sent to the
    store, whose state (up or down) plays no part. *)
Theorem register_without_username
        (env : Env) (req_username : option string) (p : string) (st : Store) :
  req_username = None \/ req_username = Some "" ->
  post_api_register env req_username (Some (JStr p)) st =
    (Responded (mkResponse 500
       (Text "User validation failed: username: Path `username` is required.")),
     st, []).
Proof. intros [->| ->]; reflexivity. Qed.

Section Session.

(** [bcrypt.compare] accepts a password against its own hash; [jwt.verify]
    decodes, until it expires, the payload [jwt.sign] signed under the same
    secret; a token is never the empty string. *)
Hypothesis bcrypt_matches_digest :
  forall p rounds entropy,
    bcrypt_matches p (bcrypt_digest p rounds entropy) = true.
Hypothesis jws_verify_sign :
  forall c key t, (t < exp c)%Z -> jws_verify (jws_sign c key) key t = Some c.
Hypothesis jws_sign_nonempty : forall c key, jws_sign c key <> "".

(** X18. The token of a login opens the protected route.  On a store that
    answers, the token returned to a registered user who logs in with the
    right password, sent as the bare value of the Authorization header less
    than 3600 seconds after the login, passes the middleware, which
    attaches the user's id and username to the request, and the protected
    route answers with the product listing. *)
Theorem login_token_opens_protected_route
        (env env' : Env) (u p : string) (doc : UserDoc) (st st' : Store) :
  db_error st = None -> registered st u p doc ->
  (now env' < now env + 3600)%Z ->
  exists token,
    outcome (post_api_login env u (Some (JStr p)) st) =
      Responded (mkResponse 200 (Json (JObj [("token", JStr token)]))) /\
    verifyToken env' (mkRequest (Some token) None) =
      Next (mkRequest (Some token)
              (Some (mkClaims (toHexString (user_id doc)) u (now env)
                              (now env + 3600)))) /\
    get_api_products_full env' (mkRequest (Some token) None) st' =
      get_api_products st'.
Proof using bcrypt_matches_digest jws_verify_sign jws_sign_nonempty.
  intros Hdb [Hfind [entropy Hpw]] Ht.
  assert (Hu : username doc = u).
  { apply find_some in Hfind as [_ H]. now apply String.eqb_eq. }
  set (claims := mkClaims (toHexString (user_id doc)) u (now env)
                          (now env + 3600)).
  exists (jws_sign claims JWT_SECRET).
  assert (Hn : verifyToken env' (mkRequest (Some (jws_sign claims JWT_SECRET)) None)
               = Next (mkRequest (Some (jws_sign claims JWT_SECRET)) (Some claims))).
  { apply verifyToken_accepts; [reflexivity|apply jws_sign_nonempty|].
    now apply jws_verify_sign. }
  repeat apply conj.
  - unfold post_api_login. unfold async, try_catch at 1, bind at 1.
    rewrite (User_findOne_ok u st Hdb), Hfind.
    unfold bcrypt_compare, jwt_sign. unfold_await.
    rewrite Hpw, bcrypt_matches_digest, Hu. reflexivity.
  - exact Hn.
  - unfold get_api_products_full, guarded. now rewrite Hn.
Qed.

End Session.

End Server.

(** ** The reference instance satisfies the library laws *)

Module ReferenceLaws.

Import Reference.

Lemma starts_with_app (a b : string) : starts_with a (a ++ b) = true.
Proof.
  induction a as [|c r IH]; cbn; [reflexivity|].
  now rewrite Ascii.eqb_refl.
Qed.

Lemma digest_nonempty (p : string) (rounds : N) (entropy : string) :
  digest p rounds entropy <> "".
Proof. discriminate. Qed.

Lemma matches_digest (p : string) (rounds : N) (entropy : string) :
  matches p (digest p rounds entropy) = true.
Proof.
  unfold matches, digest. cbn.
  induction p as [|c r IH]; cbn; [reflexivity|].
  now rewrite Ascii.eqb_refl.
Qed.

Lemma take_hex_bytes (l : list byte) (rest : string) :
  take_hex (bytes_hex l ++ String "." rest) = (l, String "." rest).
Proof.
  induction l as [|b r IH]; [now destruct rest|].
  destruct (byte_hex_digits b) as (Hh & Hl & Hb).
  cbn [bytes_hex byte_hex append take_hex].
  now rewrite Hh, Hl, Hb, IH.
Qed.

Lemma read_segment_segment (s rest : string) :
  read_segment (segment s rest) = Some (s, rest).
Proof.
  unfold read_segment, segment. rewrite take_hex_bytes.
  now rewrite string_of_list_byte_of_string.
Qed.

Lemma decode_sign (c : Claims) (key : string) :
  decode (sign c key) = Some (c, key).
Proof.
  unfold decode, sign. rewrite !read_segment_segment.
  rewrite !HexString.to_Z_of_Z. now destruct c.
Qed.

Lemma verify_sign (c : Claims) (key : string) (t : Z) :
  (t < exp c)%Z -> verify (sign c key) key t = Some c.
Proof.
  intros Ht. unfold verify. rewrite decode_sign.
  rewrite !String.eqb_refl. apply Z.ltb_lt in Ht. now rewrite Ht.
Qed.

Lemma hexdigit_base64url (b : byte) :
  base64url_char (hexdigit (Byte.to_N b / 16)) = true /\
  base64url_char (hexdigit (Byte.to_N b mod 16)) = true.
Proof. destruct b; vm_compute; split; reflexivity. Qed.

Lemma jws_chars_segment (s rest : string) :
  jws_chars (segment s rest) = jws_chars rest.
Proof.
  unfold segment. induction (list_byte_of_string s) as [|b r IH].
  - reflexivity.
  - destruct (hexdigit_base64url b) as [H1 H2].
    cbn [bytes_hex byte_hex append jws_chars]. now rewrite H1, H2, IH.
Qed.

Lemma verify_compact (token key : string) (t : Z) (decoded : Claims) :
  verify token key t = Some decoded -> jws_chars token = true.
Proof.
  unfold verify. destruct (decode token) as [[c key']|]; [|discriminate].
  destruct (String.eqb token (sign c key)) eqn:E;
    [|rewrite andb_false_r; discriminate].
  intros _. apply String.eqb_eq in E. subst token.
  unfold sign. now rewrite !jws_chars_segment.
Qed.

Lemma sign_nonempty (c : Claims) (key : string) : sign c key <> "".
Proof.
  unfold sign, segment.
  destruct (list_byte_of_string (id c)); cbn; discriminate.
Qed.

End ReferenceLaws.

(** ** The statements at concrete requests *)

(** C1. The public listing runs the same query and sends the same
    documents as the protected one: on a store holding one product with a
    purchase price and a source, the record [GET /api/products] returns
    carries both fields, and [GET /api/products/full] with a token that
    verifies returns the very same response. *)
Theorem get_api_products_exposes_cost_fields :
  exists j,
    get_api_products sample_store =
      (Responded (mkResponse 200 (Json (JArr [j]))), sample_store,
       [Query MProduct; Query MSeries]) /\
    json_field "purchasePrice" j = Some (JNum 950) /\
    json_field "source" j = Some (JStr "Distributor A") /\
    Reference.verify sample_token sample_secret 1700000000 = Some sample_claims /\
    get_api_products_full Reference.verify sample_secret (sample_env x00)
                          (mkRequest (Some sample_token) None) sample_store =
      get_api_products sample_store.
Proof. eexists. repeat split. Qed.

(** A registration request without a password, on the empty store. *)
Lemma register_without_string_password_witness :
  is_string None = false /\
  post_api_register Reference.digest (sample_env x03) (Some "alice") None
                    empty_store =
    (Rejected (IllegalArguments "undefined" "number"), empty_store, []).
Proof.
  split; [reflexivity|].
  exact (proj1 (register_without_string_password
                  Reference.digest (sample_env x03) (Some "alice") None
                  empty_store eq_refl)).
Defined.

(** The protected route without a header, with a header that is no token,
    and with a token signed under the secret. *)
Lemma get_api_products_full_guard_witness :
  let route := get_api_products_full Reference.verify sample_secret
                                     (sample_env x00) in
  route (mkRequest None None) sample_store =
    (Responded (mkResponse 403 (Text "Token is required")), sample_store, []) /\
  route (mkRequest (Some "not-a-token") None) sample_store =
    (Responded (mkResponse 500 (Text "Invalid Token")), sample_store, []) /\
  route (mkRequest (Some sample_token) None) sample_store =
    products_full_handler (mkRequest (Some sample_token) (Some sample_claims))
                          sample_store.
Proof.
  intros route. repeat apply conj.
  - apply (get_api_products_full_guard Reference.verify sample_secret
             (sample_env x00) (mkRequest None None) sample_store).
    reflexivity.
  - apply (proj1 (proj2 (get_api_products_full_guard
                           Reference.verify sample_secret (sample_env x00)
                           (mkRequest (Some "not-a-token") None) sample_store))
             "not-a-token").
    + reflexivity.
    + discriminate.
    + reflexivity.
  - apply (proj1 (proj2 (proj2 (get_api_products_full_guard
                                  Reference.verify sample_secret (sample_env x00)
                                  (mkRequest (Some sample_token) None)
                                  sample_store)))
             sample_token sample_claims).
    + reflexivity.
    + discriminate.
    + vm_compute. reflexivity.
Defined.

(** The same token with and without the scheme prefix. *)
Lemma bearer_scheme_rejected_witness :
  let req := mkRequest (Some ("Bearer " ++ sample_token)) None in
  authorization req = Some ("Bearer " ++ sample_token) /\
  Reference.verify sample_token sample_secret 1700000000 = Some sample_claims /\
  get_api_products_full Reference.verify sample_secret (sample_env x00) req
                        sample_store =
    (Responded (mkResponse 500 (Text "Invalid Token")), sample_store, []) /\
  verifyToken Reference.verify sample_secret (sample_env x00)
              (mkRequest (Some sample_token) None) =
    Next (mkRequest (Some sample_token) (Some sample_claims)).
Proof.
  intros req.
  pose proof (bearer_scheme_rejected
                Reference.verify sample_secret ReferenceLaws.verify_compact
                (sample_env x00) req sample_store sample_token eq_refl)
    as (_ & H500 & Hbare & _).
  assert (Hv : Reference.verify sample_token sample_secret 1700000000 =
               Some sample_claims) by (vm_compute; reflexivity).
  repeat apply conj.
  - reflexivity.
  - exact Hv.
  - exact H500.
  - apply Hbare; [discriminate|exact Hv].
Defined.

(** A product for a well-formed id that no Series has. *)
Lemma post_api_products_unknown_series_witness :
  let b := sample_body (Some (toHexString (sample_id x08))) in
  resolve_series (seriesId b) sample_store = None /\
  post_api_products (sample_env x09) b sample_store =
    (Responded (mkResponse 400 (Text "Series not found")), sample_store,
     [Query MSeries]).
Proof.
  intros b. split; [reflexivity|].
  apply (post_api_products_unknown_series (sample_env x09) b sample_store);
    reflexivity.
Defined.

(** C2, as stated, fails: a [seriesId] that is not the hexadecimal form of
    an ObjectId resolves to no Series, and the request is answered 500 with
    the cast error, not 400. *)
Lemma post_api_products_malformed_seriesId :
  let b := sample_body (Some "abc") in
  db_error sample_store = None /\
  resolve_series (seriesId b) sample_store = None /\
  outcome (post_api_products (sample_env x09) b sample_store) =
    Responded (mkResponse 500
      (Text ("Error creating product: " ++ message (CastError "abc" "_id" MSeries)))) /\
  outcome (post_api_products (sample_env x09) b sample_store) <>
    Responded (mkResponse 400 (Text "Series not found")).
Proof. repeat split. discriminate. Qed.

(** The listing of the sample Series, and of an id that no Series has. *)
Lemma get_api_products_series_listing_witness :
  outcome (get_api_products_series (toHexString (sample_id x01)) sample_store) =
    Responded (mkResponse 200
      (Json (JArr [product_json (sample_product, Some sample_series)]))) /\
  get_api_products_series (toHexString (sample_id x08)) sample_store =
    (Responded (mkResponse 404 (Text "Series not found")), sample_store,
     [Query MSeries]).
Proof.
  split.
  - apply (proj1 (get_api_products_series_listing
                    (toHexString (sample_id x01)) (sample_id x01) sample_store
                    eq_refl eq_refl) sample_series eq_refl).
  - apply (proj2 (get_api_products_series_listing
                    (toHexString (sample_id x08)) (sample_id x08) sample_store
                    eq_refl eq_refl)).
    reflexivity.
Defined.

(** C6, as stated, fails: a route parameter that is not the hexadecimal
    form of an ObjectId resolves to no Series, and the request is answered
    500 with the cast error, not 404. *)
Lemma get_api_products_series_malformed_id :
  db_error sample_store = None /\
  resolve_series (Some "abc") sample_store = None /\
  get_api_products_series "abc" sample_store =
    (Responded (mkResponse 500 (Text (message (CastError "abc" "_id" MSeries)))),
     sample_store, []) /\
  outcome (get_api_products_series "abc" sample_store) <>
    Responded (mkResponse 404 (Text "Series not found")).
Proof. repeat split. discriminate. Qed.

(** The round trip from the sample store, and the read of an id that no
    product has. *)
Lemma series_product_round_trip_witness :
  let env1 := sample_env x11 in
  let env2 := sample_env x12 in
  let b := sample_body (Some (toHexString (sample_id x11))) in
  let st1 := store_after (post_api_series env1 (Some "S1") sample_store) in
  let st2 := store_after (post_api_products env2 b st1) in
  outcome (post_api_series env1 (Some "S1") sample_store) =
    Responded (mkResponse 201 (Text "Series created successfully")) /\
  outcome (get_api_products_id (toHexString (sample_id x12)) st2) =
    Responded (mkResponse 200
      (Json (product_json (new_product (sample_id x12) b (sample_id x11),
                           Some (mkSeries (sample_id x11) "S1"))))) /\
  get_api_products_id (toHexString (sample_id x13)) st2 =
    (Responded (mkResponse 404 (Text "Product not found")), st2,
     [Query MProduct]).
Proof.
  intros env1 env2 b st1 st2.
  pose proof (series_product_round_trip env1 env2 b sample_store
                eq_refl eq_refl eq_refl) as H.
  cbv zeta in H. destruct H as (_ & _ & _ & Hread & _ & _ & H404 & _).
  repeat apply conj.
  - reflexivity.
  - exact Hread.
  - apply (H404 _ (sample_id x13)); reflexivity.
Defined.

(** C7, as stated, fails on its last part: the route parameter "abc" is
    the id of no product, and reading it is answered 500 with the cast
    error, not 404. *)
Lemma get_api_products_id_malformed_id :
  db_error sample_store = None /\
  forallb (fun p => negb (String.eqb (toHexString (product_id p)) "abc"))
          (product_coll sample_store) = true /\
  get_api_products_id "abc" sample_store =
    (Responded (mkResponse 500 (Text (message (CastError "abc" "_id" MProduct)))),
     sample_store, []) /\
  outcome (get_api_products_id "abc" sample_store) <>
    Responded (mkResponse 404 (Text "Product not found")).
Proof. repeat split. discriminate. Qed.

(** Two registrations of the same name, starting from the empty store. *)
Lemma register_twice_witness :
  let first := post_api_register Reference.digest (sample_env x21)
                 (Some "alice") (Some (JStr "correct horse")) empty_store in
  let second := post_api_register Reference.digest (sample_env x22)
                  (Some "alice") (Some (JStr "battery staple"))
                  (store_after first) in
  outcome first = Responded (mkResponse 201 (Text "User registered")) /\
  store_after first = alice_store /\
  (exists index,
     outcome second =
       Responded (mkResponse 500 (Text (message (DuplicateKey MUser index))))) /\
  store_after second = alice_store.
Proof.
  intros first second.
  assert (Hu : "alice" <> "") by discriminate.
  pose proof (register_twice Reference.digest ReferenceLaws.digest_nonempty
                (sample_env x21) (sample_env x22) "alice" "correct horse"
                "battery staple" empty_store eq_refl Hu eq_refl eq_refl) as H.
  cbv zeta in H. destruct H as (H1 & H2 & H3 & H4 & _).
  repeat apply conj.
  - exact H1.
  - exact H2.
  - exact H3.
  - exact H4.
Defined.

(** C5, as stated, fails: the empty username is in no store, and its first
    registration is refused by the [required] validator with a 500. *)
Lemma post_api_register_empty_username :
  db_error empty_store = None /\
  List.find (fun d => String.eqb (username d) "") (user_coll empty_store) = None /\
  post_api_register Reference.digest (sample_env x21) (Some "")
                    (Some (JStr "correct horse")) empty_store =
    (Responded (mkResponse 500
       (Text "User validation failed: username: Path `username` is required.")),
     empty_store, []) /\
  outcome (post_api_register Reference.digest (sample_env x21) (Some "")
                             (Some (JStr "correct horse")) empty_store) <>
    Responded (mkResponse 201 (Text "User registered")).
Proof. repeat split. discriminate. Qed.

(** Logins against a store holding one user: the right password, an
    unknown name and a wrong password. *)
Lemma login_outcomes_witness :
  let login := post_api_login Reference.matches Reference.sign sample_secret
                              (sample_env x00) in
  db_error alice_store = None /\
  registered Reference.digest alice_store "alice" "correct horse" alice /\
  login "alice" (Some (JStr "correct horse")) alice_store =
    (Responded (mkResponse 200 (Json (JObj [("token", JStr sample_token)]))),
     alice_store, [Query MUser]) /\
  Reference.verify sample_token sample_secret 1700003599 = Some sample_claims /\
  login "bob" (Some (JStr "correct horse")) alice_store =
    (Responded (mkResponse 400 (Text "User not found")), alice_store,
     [Query MUser]) /\
  login "alice" (Some (JStr "battery staple")) alice_store =
    (Responded (mkResponse 400 (Text "Invalid password")), alice_store,
     [Query MUser]).
Proof.
  intros login.
  assert (Hreg : registered Reference.digest alice_store "alice"
                            "correct horse" alice).
  { split; [reflexivity|]. exists "c2FsdA". reflexivity. }
  pose proof (login_outcomes Reference.digest Reference.matches Reference.sign
                Reference.verify sample_secret ReferenceLaws.matches_digest
                ReferenceLaws.verify_sign (sample_env x00) "alice" alice_store
                eq_refl) as (Hok & _ & Hbad & _).
  pose proof (login_outcomes Reference.digest Reference.matches Reference.sign
                Reference.verify sample_secret ReferenceLaws.matches_digest
                ReferenceLaws.verify_sign (sample_env x00) "bob" alice_store
                eq_refl) as (_ & Hunknown & _).
  destruct (Hok "correct horse" alice Hreg) as [Hlogin Hdecode].
  split; [reflexivity|].
  split; [exact Hreg|].
  split; [exact Hlogin|].
  split; [apply (Hdecode 1700003599%Z); reflexivity|].
  split; [apply Hunknown; reflexivity|].
  apply (Hbad alice "battery staple"); reflexivity.
Defined.

(** ** Further statements at concrete requests *)

Lemma sample_store_ids_unique : ids_unique sample_store.
Proof. repeat split; repeat constructor; intros []. Qed.

Lemma sample_store_references : references_resolve sample_store.
Proof.
  intros p [<-|[]]. exists sample_series. split; [now left|reflexivity].
Qed.

Lemma sample_store_required : required_paths_set sample_store.
Proof.
  split.
  - intros s [<-|[]]. discriminate.
  - intros u [].
Qed.

(** The listing of a series reads and does not write. *)
Lemma reads_leave_store_witness :
  let c := GetProductsSeries (toHexString (sample_id x01)) in
  saves c = false /\
  store_after (serve Reference.digest Reference.matches Reference.sign
                     Reference.verify sample_secret (sample_env x00) c
                     sample_store) = sample_store.
Proof.
  intros c. split; [reflexivity|].
  apply (reads_leave_store Reference.digest Reference.matches Reference.sign
           Reference.verify sample_secret (sample_env x00) c sample_store).
  reflexivity.
Defined.

(** The sample store keeps its invariants when a product is created. *)
Lemma serve_keeps_ids_unique_witness :
  let c := PostProducts (sample_body (Some (toHexString (sample_id x01)))) in
  ids_unique sample_store /\
  ids_unique (store_after
    (serve Reference.digest Reference.matches Reference.sign
           Reference.verify sample_secret (sample_env x12) c sample_store)).
Proof.
  intros c. split; [exact sample_store_ids_unique|].
  apply serve_keeps_ids_unique. exact sample_store_ids_unique.
Defined.

Lemma serve_keeps_names_unique_witness :
  let c := PostSeries (Some "S1") in
  unique_series_names sample_store /\
  unique_series_names
    (store_after
       (serve Reference.digest Reference.matches Reference.sign
              Reference.verify sample_secret (sample_env x11) c sample_store)) /\
  unique_usernames alice_store /\
  unique_usernames
    (store_after
       (serve Reference.digest Reference.matches Reference.sign
              Reference.verify sample_secret (sample_env x22)
                    (PostRegister (Some "bob") (Some (JStr "battery staple")))
                    alice_store)).
Proof.
  intros c.
  assert (Hs : unique_series_names sample_store)
    by (repeat constructor; intros []).
  assert (Hu : unique_usernames alice_store)
    by (repeat constructor; intros []).
  split; [exact Hs|]. split.
  - apply (proj1 (serve_keeps_names_unique
                    Reference.digest Reference.matches Reference.sign
                    Reference.verify sample_secret (sample_env x11) c
                    sample_store)).
    exact Hs.
  - split; [exact Hu|].
    apply (proj2 (serve_keeps_names_unique
                    Reference.digest Reference.matches Reference.sign
                    Reference.verify sample_secret (sample_env x22) _
                    alice_store)).
    exact Hu.
Defined.

Lemma serve_keeps_references_witness :
  let c := PostProducts (sample_body (Some (toHexString (sample_id x01)))) in
  references_resolve sample_store /\
  references_resolve
    (store_after
       (serve Reference.digest Reference.matches Reference.sign
              Reference.verify sample_secret (sample_env x12) c sample_store)).
Proof.
  intros c. split; [exact sample_store_references|].
  apply serve_keeps_references. exact sample_store_references.
Defined.

Lemma serve_keeps_required_paths_witness :
  let c := PostSeries (Some "S1") in
  required_paths_set sample_store /\
  required_paths_set
    (store_after
       (serve Reference.digest Reference.matches Reference.sign
              Reference.verify sample_secret (sample_env x11) c sample_store)).
Proof.
  intros c. split; [exact sample_store_required|].
  apply serve_keeps_required_paths. exact sample_store_required.
Defined.

Lemma listing_resolves_series_witness :
  db_error sample_store = None /\
  references_resolve sample_store /\
  outcome (get_api_products sample_store) =
    Responded (mkResponse 200
      (Json (JArr [product_json (sample_product, Some sample_series)]))).
Proof.
  split; [reflexivity|]. split; [exact sample_store_references|].
  exact (proj1 (listing_resolves_series sample_store eq_refl
                  sample_store_references)).
Defined.

(** The four outcomes of a Series creation on the sample store. *)
Lemma post_api_series_outcomes_witness :
  let env := sample_env x11 in
  outcome (post_api_series env None sample_store) =
    Responded (mkResponse 500
      (Text "Series validation failed: name: Path `name` is required.")) /\
  outcome (post_api_series env (Some "S1") down_store) =
    Responded (mkResponse 500 (Text "connect ECONNREFUSED 127.0.0.1:27017")) /\
  (exists index,
     post_api_series env (Some "iPhone 15") sample_store =
       (Responded (mkResponse 500 (Text (message (DuplicateKey MSeries index)))),
        sample_store, [Insert MSeries])) /\
  post_api_series env (Some "S1") sample_store =
    (Responded (mkResponse 201 (Text "Series created successfully")),
     with_series sample_store (mkSeries (sample_id x11) "S1"), [Insert MSeries]).
Proof.
  intros env.
  assert (Hn : "S1" <> "") by discriminate.
  assert (Hn' : "iPhone 15" <> "") by discriminate.
  destruct (post_api_series_outcomes env sample_store)
    as (Hval & _ & Hdup & Hnew).
  destruct (post_api_series_outcomes env down_store) as (_ & Hdown & _).
  split; [now rewrite (Hval None (or_introl eq_refl))|].
  split; [now rewrite (Hdown "S1" _ Hn eq_refl)|].
  split; [apply (Hdup "iPhone 15" Hn' eq_refl); now right|].
  apply (Hnew "S1" Hn); reflexivity.
Defined.

Lemma series_created_then_read_witness :
  let st1 := store_after (post_api_series (sample_env x11) (Some "S1")
                                          sample_store) in
  get_api_series_id (toHexString (sample_id x11)) st1 =
    (Responded (mkResponse 200
       (Json (JObj [("_id", JStr (toHexString (sample_id x11)));
                    ("name", JStr "S1")]))),
     st1, [Query MSeries]) /\
  outcome (get_api_series st1) =
    Responded (mkResponse 200
      (Json (JArr [series_json sample_series;
                   series_json (mkSeries (sample_id x11) "S1")]))).
Proof.
  intros st1.
  assert (Hn : "S1" <> "") by discriminate.
  pose proof (series_created_then_read (sample_env x11) "S1" sample_store
                eq_refl Hn eq_refl eq_refl) as H.
  cbv zeta in H. destruct H as [Hread Hlist].
  split; [exact Hread|].
  apply (Hlist [series_json sample_series]). reflexivity.
Defined.

Lemma listed_series_can_be_read_witness :
  db_error sample_store = None /\
  NoDup (map series_id (series_coll sample_store)) /\
  exists records,
    outcome (get_api_series sample_store) =
      Responded (mkResponse 200 (Json (JArr records))) /\
    length records = 1.
Proof.
  assert (Hnd : NoDup (map series_id (series_coll sample_store)))
    by (repeat constructor; intros []).
  split; [reflexivity|]. split; [exact Hnd|].
  destruct (listed_series_can_be_read sample_store eq_refl Hnd)
    as (records & Hout & Hlen & _).
  exists records. split; [exact Hout|exact Hlen].
Defined.

Lemma listed_product_can_be_read_witness :
  db_error sample_store = None /\
  NoDup (map product_id (product_coll sample_store)) /\
  exists records,
    outcome (get_api_products sample_store) =
      Responded (mkResponse 200 (Json (JArr records))) /\
    length records = 1.
Proof.
  assert (Hnd : NoDup (map product_id (product_coll sample_store)))
    by (repeat constructor; intros []).
  split; [reflexivity|]. split; [exact Hnd|].
  destruct (listed_product_can_be_read sample_store eq_refl Hnd)
    as (records & Hout & Hlen & _).
  exists records. split; [exact Hout|exact Hlen].
Defined.

Lemma series_listing_is_filtered_listing_witness :
  outcome (get_api_products_series (toHexString (sample_id x01)) sample_store) =
    Responded (mkResponse 200
      (Json (JArr (map (product_record sample_store)
                       (filter (Product.in_series (sample_id x01))
                               (product_coll sample_store)))))).
Proof.
  exact (proj2 (series_listing_is_filtered_listing
                  (toHexString (sample_id x01)) (sample_id x01) sample_series
                  sample_store eq_refl eq_refl eq_refl)).
Defined.

Lemma created_product_joins_series_witness :
  let b := sample_body (Some (toHexString (sample_id x01))) in
  let st1 := store_after (post_api_products (sample_env x12) b sample_store) in
  outcome (get_api_products_series (toHexString (sample_id x01)) st1) =
    Responded (mkResponse 200
      (Json (JArr [product_json (sample_product, Some sample_series);
                   product_json (new_product (sample_id x12) b (sample_id x01),
                                 Some sample_series)]))).
Proof.
  intros b st1.
  pose proof (created_product_joins_series
                (sample_env x12) b (toHexString (sample_id x01)) (sample_id x01)
                sample_series sample_store eq_refl eq_refl eq_refl eq_refl
                eq_refl) as H.
  cbv zeta in H. destruct H as (_ & Hlist & _).
  apply (Hlist [product_json (sample_product, Some sample_series)]).
  reflexivity.
Defined.

Lemma login_without_string_password_witness :
  let login := post_api_login Reference.matches Reference.sign sample_secret
                              (sample_env x00) in
  is_string None = false /\
  login "alice" None alice_store =
    (Responded (mkResponse 500 (Text "Illegal arguments: undefined, string")),
     alice_store, [Query MUser]) /\
  login "bob" (Some (JNum 7)) alice_store =
    (Responded (mkResponse 400 (Text "User not found")), alice_store,
     [Query MUser]).
Proof.
  intros login. split; [reflexivity|]. split.
  - exact (login_without_string_password
             Reference.matches Reference.sign sample_secret (sample_env x00)
             "alice" None alice_store eq_refl eq_refl).
  - exact (login_without_string_password
             Reference.matches Reference.sign sample_secret (sample_env x00)
             "bob" (Some (JNum 7)) alice_store eq_refl eq_refl).
Defined.

Lemma listing_same_with_or_without_token_witness :
  Reference.verify sample_token sample_secret 1700000000 = Some sample_claims /\
  get_api_products_full Reference.verify sample_secret (sample_env x00)
                        (mkRequest (Some sample_token) None) down_store =
    get_api_products down_store.
Proof.
  assert (Hv : Reference.verify sample_token sample_secret 1700000000 =
               Some sample_claims) by (vm_compute; reflexivity).
  assert (Hne : sample_token <> "") by discriminate.
  split; [exact Hv|].
  exact (proj1 (listing_same_with_or_without_token
                  Reference.verify sample_secret (sample_env x00)
                  (mkRequest (Some sample_token) None) sample_token
                  sample_claims down_store eq_refl Hne Hv)).
Defined.

(** Requests to the four writing or guarded routes against a store that is
    down, and one that does not get as far as the store. *)
Lemma store_down_answers_500_witness :
  let run := serve Reference.digest Reference.matches Reference.sign
                   Reference.verify sample_secret (sample_env x31) in
  let down op :=
    (Responded (mkResponse 500 (Text "connect ECONNREFUSED 127.0.0.1:27017")),
     down_store, [op]) in
  db_error down_store = Some "connect ECONNREFUSED 127.0.0.1:27017" /\
  run (PostRegister (Some "alice") (Some (JStr "correct horse"))) down_store =
    down (Insert MUser) /\
  run (PostSeries (Some "S1")) down_store = down (Insert MSeries) /\
  run GetSeries down_store = down (Query MSeries) /\
  run (GetProductsFull (mkRequest (Some sample_token) None)) down_store =
    down (Query MProduct) /\
  run GetProducts down_store = down (Query MProduct) /\
  run (PostProducts (sample_body (Some (toHexString (sample_id x01)))))
      down_store =
    (Responded (mkResponse 500
       (Text "Error creating product: connect ECONNREFUSED 127.0.0.1:27017")),
     down_store, [Query MSeries]) /\
  trace (run (GetProductsFull (mkRequest None None)) down_store) = [].
Proof.
  intros run down.
  pose (H := fun c =>
          store_down_answers_500
            Reference.digest Reference.matches Reference.sign Reference.verify
            sample_secret (sample_env x31) c _ down_store eq_refl).
  split; [reflexivity|].
  split; [apply (proj1 (H (PostRegister (Some "alice")
                             (Some (JStr "correct horse"))))); reflexivity|].
  split; [apply (proj1 (H (PostSeries (Some "S1")))); reflexivity|].
  split; [apply (proj1 (H GetSeries)); reflexivity|].
  split; [apply (proj1 (H (GetProductsFull
                             (mkRequest (Some sample_token) None))));
          vm_compute; reflexivity|].
  split; [apply (proj1 (H GetProducts)); reflexivity|].
  split; [apply (proj1 (H (PostProducts
                             (sample_body (Some (toHexString (sample_id x01)))))));
          reflexivity|].
  apply (proj2 (H (GetProductsFull (mkRequest None None)))). reflexivity.
Defined.

Lemma register_without_username_witness :
  post_api_register Reference.digest (sample_env x21) None
                    (Some (JStr "correct horse")) down_store =
    (Responded (mkResponse 500
       (Text "User validation failed: username: Path `username` is required.")),
     down_store, []).
Proof.
  exact (register_without_username
           Reference.digest (sample_env x21) None "correct horse" down_store
           (or_introl eq_refl)).
Defined.

Lemma login_token_opens_protected_route_witness :
  registered Reference.digest alice_store "alice" "correct horse" alice /\
  exists token,
    outcome (post_api_login Reference.matches Reference.sign sample_secret
                            (sample_env x00) "alice"
                            (Some (JStr "correct horse")) alice_store) =
      Responded (mkResponse 200 (Json (JObj [("token", JStr token)]))) /\
    get_api_products_full Reference.verify sample_secret
                          (mkEnv (sample_id x00) "c2FsdA" 1700003599)
                          (mkRequest (Some token) None) sample_store =
      get_api_products sample_store.
Proof.
  assert (Hreg : registered Reference.digest alice_store "alice"
                            "correct horse" alice).
  { split; [reflexivity|]. exists "c2FsdA". reflexivity. }
  split; [exact Hreg|].
  destruct (login_token_opens_protected_route
              Reference.digest Reference.matches Reference.sign
              Reference.verify sample_secret ReferenceLaws.matches_digest
              ReferenceLaws.verify_sign ReferenceLaws.sign_nonempty
              (sample_env x00) (mkEnv (sample_id x00) "c2FsdA" 1700003599)
              "alice" "correct horse" alice alice_store sample_store
              eq_refl Hreg eq_refl)
    as (token & Hlogin & _ & Hfull).
  exists token. split; [exact Hlogin|exact Hfull].
Defined.

(** The sample store is what two requests make of an empty database. *)
Lemma reachable_store_consistent_witness :
  reachable Reference.digest Reference.matches Reference.sign Reference.verify
            sample_secret sample_store /\
  ids_unique sample_store /\ unique_series_names sample_store /\
  unique_usernames sample_store /\ references_resolve sample_store /\
  required_paths_set sample_store.
Proof.
  assert (Hr : reachable Reference.digest Reference.matches Reference.sign
                         Reference.verify sample_secret sample_store).
  { change sample_store with
      (store_after
         (serve Reference.digest Reference.matches Reference.sign
                Reference.verify sample_secret (sample_env x02)
                (PostProducts (sample_body (Some (toHexString (sample_id x01)))))
                (store_after
                   (serve Reference.digest Reference.matches Reference.sign
                          Reference.verify sample_secret (sample_env x01)
                          (PostSeries (Some "iPhone 15")) empty_store)))).
    apply reachable_serve, reachable_serve, reachable_empty. }
  split; [exact Hr|].
  exact (reachable_store_consistent
           Reference.digest Reference.matches Reference.sign Reference.verify
           sample_secret sample_store Hr).
Defined.
